(** * nwp_pyutils: the executable-launch pipeline of [execute/executable_interface.py]

    A shallow embedding of the launch planner, the process runner and the
    decorator of [executable_interface.py], together with the two helpers
    it takes from [tools/parser_interface.py] ([enviro_get]) and
    [tools/system_interface.py] ([app_path]).

    Conventions of the embedding.
    - A Python [str] is a [string] of bytes; [lower] and [upper] act on the
      ASCII letters, which is all that a comparison with ["mpi"] or
      ["slurm"] can observe.  Case mapping, the case tests and the
      splitting at blanks are those of Python on ASCII text; a statement
      that tells what one of them makes of a text is kept to [is_ascii]
      text.
    - The [SimpleNamespace] is a record; an attribute holding [None] is an
      [option] at [None].  Objects are taken after the schema has filled
      its defaults, so every attribute read by the code exists.
    - Exceptions are values of [exn]; a computation yields an [outcome].
    - The operating system is split in two: what the code can only observe
      ([world]: environment variables, what a child process does, which
      paths exist) and what the code changes ([sys]: file contents, the
      working directory, the log, the children that have exited). *)

From Stdlib Require Import ZArith String Ascii List Bool Lia.
From stdpp Require Import base option strings gmap pretty sorting.

Open Scope string_scope.
Open Scope Z_scope.

(** ** Python strings *)

Module PyStr.

Definition ascii_lower (c : ascii) : ascii :=
  let n := N_of_ascii c in
  if ((65 <=? n) && (n <=? 90))%N then ascii_of_N (n + 32) else c.

Definition ascii_upper (c : ascii) : ascii :=
  let n := N_of_ascii c in
  if ((97 <=? n) && (n <=? 122))%N then ascii_of_N (n - 32) else c.

(** [str.lower()] and [str.upper()]. *)
Fixpoint lower (s : string) : string :=
  match s with
  | EmptyString => EmptyString
  | String c s' => String (ascii_lower c) (lower s')
  end.

Fixpoint upper (s : string) : string :=
  match s with
  | EmptyString => EmptyString
  | String c s' => String (ascii_upper c) (upper s')
  end.

(** [sub in s] for two strings. *)
Definition contains (sub s : string) : Prop :=
  exists pre post, s = pre +:+ sub +:+ post.

Fixpoint startswith (p s : string) : bool :=
  match p, s with
  | EmptyString, _ => true
  | String a p', String b s' => if Ascii.eqb a b then startswith p' s' else false
  | String _ _, EmptyString => false
  end.

Fixpoint containsb (sub s : string) : bool :=
  startswith sub s ||
  match s with
  | EmptyString => false
  | String _ s' => containsb sub s'
  end.

Definition endswith_slash (s : string) : bool :=
  match rev (list_ascii_of_string s) with
  | c :: _ => Ascii.eqb c "/"
  | [] => false
  end.

(** [os.path.join(a, b)] of [posixpath], for two components. *)
Definition path_join (a b : string) : string :=
  if startswith "/" b then b
  else if (String.eqb a "" || endswith_slash a)%bool then a +:+ b
  else a +:+ "/" +:+ b.

(** The bytes [bytes.rstrip()] strips when given no argument. *)
Definition bytes_isspace (c : ascii) : bool :=
  let n := N_of_ascii c in
  (((9 <=? n) && (n <=? 13)) || (n =? 32))%N.

(** The ASCII characters [str.split()] splits on when given no argument. *)
Definition str_isspace (c : ascii) : bool :=
  let n := N_of_ascii c in
  (((9 <=? n) && (n <=? 13)) || ((28 <=? n) && (n <=? 32)))%N.

Fixpoint lstrip_list (l : list ascii) : list ascii :=
  match l with
  | c :: l' => if bytes_isspace c then lstrip_list l' else l
  | [] => []
  end.

Definition rstrip (s : string) : string :=
  string_of_list_ascii (rev (lstrip_list (rev (list_ascii_of_string s)))).

(** [str.split()] without argument: the maximal runs of non-blank
    bytes, in order.  [cur] is the run being read, reversed. *)
Fixpoint split_go (l : list ascii) (cur : list ascii) : list string :=
  match l with
  | [] => match cur with [] => [] | _ => [string_of_list_ascii (rev cur)] end
  | c :: l' =>
      if str_isspace c
      then match cur with
           | [] => split_go l' []
           | _ => string_of_list_ascii (rev cur) :: split_go l' []
           end
      else split_go l' (c :: cur)
  end.

Definition split (s : string) : list string :=
  split_go (list_ascii_of_string s) [].

End PyStr.

(** ** Python values that the task count can hold *)

Inductive pyval :=
| PyNone
| PyInt (z : Z)
| PyStr (s : string).

(** [str(v)], which is also what an f-string field renders. *)
Definition py_str (v : pyval) : string :=
  match v with
  | PyNone => "None"
  | PyInt z => pretty z
  | PyStr s => s
  end.

(** [f"{x}"] for an attribute that is a string or [None]. *)
Definition fmt (x : option string) : string :=
  match x with
  | None => "None"
  | Some s => s
  end.

(** [a == b]: an [int] and a [str] are never equal. *)
Definition py_eq (a b : pyval) : bool :=
  match a, b with
  | PyNone, PyNone => true
  | PyInt x, PyInt y => x =? y
  | PyStr x, PyStr y => String.eqb x y
  | _, _ => false
  end.

(** ** Exceptions and outcomes *)

Inductive exn :=
| ExecutableInterfaceError (msg : string)
| AttributeError
| TypeError
| UnboundLocalError
| IndexError
| OSError
| ValueError
| CalledProcessError (argv : list string) (status : Z)
| SchemaError (msg : string).

Inductive outcome (A : Type) :=
| Ok (a : A)
| Raise (e : exn).
Arguments Ok {A} a.
Arguments Raise {A} e.

Definition obind {A B} (x : outcome A) (k : A -> outcome B) : outcome B :=
  match x with
  | Ok a => k a
  | Raise e => Raise e
  end.

(** ** The Configuration Object *)

Record exec_obj := {
  exec_path : string;
  run_path : string;
  scheduler : option string;
  launcher : option string;
  multi : bool;
  serial : bool;
  task_keys : list string;
  ntasks : pyval;
  img_path : option string;
  container : bool;
  nprocs_flag : option string;
  cmd : list string;
  stderr : option string;
  stdout : option string;
  rc : option Z;
  schema_path : option string
}.

Definition set_launcher (v : option string) (o : exec_obj) : exec_obj :=
  {| exec_path := exec_path o; run_path := run_path o; scheduler := scheduler o;
     launcher := v; multi := multi o; serial := serial o;
     task_keys := task_keys o; ntasks := ntasks o; img_path := img_path o;
     container := container o; nprocs_flag := nprocs_flag o; cmd := cmd o;
     stderr := stderr o; stdout := stdout o; rc := rc o;
     schema_path := schema_path o |}.

Definition set_serial (v : bool) (o : exec_obj) : exec_obj :=
  {| exec_path := exec_path o; run_path := run_path o; scheduler := scheduler o;
     launcher := launcher o; multi := multi o; serial := v;
     task_keys := task_keys o; ntasks := ntasks o; img_path := img_path o;
     container := container o; nprocs_flag := nprocs_flag o; cmd := cmd o;
     stderr := stderr o; stdout := stdout o; rc := rc o;
     schema_path := schema_path o |}.

Definition set_ntasks (v : pyval) (o : exec_obj) : exec_obj :=
  {| exec_path := exec_path o; run_path := run_path o; scheduler := scheduler o;
     launcher := launcher o; multi := multi o; serial := serial o;
     task_keys := task_keys o; ntasks := v; img_path := img_path o;
     container := container o; nprocs_flag := nprocs_flag o; cmd := cmd o;
     stderr := stderr o; stdout := stdout o; rc := rc o;
     schema_path := schema_path o |}.

Definition set_container (v : bool) (o : exec_obj) : exec_obj :=
  {| exec_path := exec_path o; run_path := run_path o; scheduler := scheduler o;
     launcher := launcher o; multi := multi o; serial := serial o;
     task_keys := task_keys o; ntasks := ntasks o; img_path := img_path o;
     container := v; nprocs_flag := nprocs_flag o; cmd := cmd o;
     stderr := stderr o; stdout := stdout o; rc := rc o;
     schema_path := schema_path o |}.

Definition set_nprocs_flag (v : option string) (o : exec_obj) : exec_obj :=
  {| exec_path := exec_path o; run_path := run_path o; scheduler := scheduler o;
     launcher := launcher o; multi := multi o; serial := serial o;
     task_keys := task_keys o; ntasks := ntasks o; img_path := img_path o;
     container := container o; nprocs_flag := v; cmd := cmd o;
     stderr := stderr o; stdout := stdout o; rc := rc o;
     schema_path := schema_path o |}.

Definition set_cmd (v : list string) (o : exec_obj) : exec_obj :=
  {| exec_path := exec_path o; run_path := run_path o; scheduler := scheduler o;
     launcher := launcher o; multi := multi o; serial := serial o;
     task_keys := task_keys o; ntasks := ntasks o; img_path := img_path o;
     container := container o; nprocs_flag := nprocs_flag o; cmd := v;
     stderr := stderr o; stdout := stdout o; rc := rc o;
     schema_path := schema_path o |}.

Definition set_stderr (v : option string) (o : exec_obj) : exec_obj :=
  {| exec_path := exec_path o; run_path := run_path o; scheduler := scheduler o;
     launcher := launcher o; multi := multi o; serial := serial o;
     task_keys := task_keys o; ntasks := ntasks o; img_path := img_path o;
     container := container o; nprocs_flag := nprocs_flag o; cmd := cmd o;
     stderr := v; stdout := stdout o; rc := rc o;
     schema_path := schema_path o |}.

Definition set_stdout (v : option string) (o : exec_obj) : exec_obj :=
  {| exec_path := exec_path o; run_path := run_path o; scheduler := scheduler o;
     launcher := launcher o; multi := multi o; serial := serial o;
     task_keys := task_keys o; ntasks := ntasks o; img_path := img_path o;
     container := container o; nprocs_flag := nprocs_flag o; cmd := cmd o;
     stderr := stderr o; stdout := v; rc := rc o;
     schema_path := schema_path o |}.

Definition set_rc (v : option Z) (o : exec_obj) : exec_obj :=
  {| exec_path := exec_path o; run_path := run_path o; scheduler := scheduler o;
     launcher := launcher o; multi := multi o; serial := serial o;
     task_keys := task_keys o; ntasks := ntasks o; img_path := img_path o;
     container := container o; nprocs_flag := nprocs_flag o; cmd := cmd o;
     stderr := stderr o; stdout := stdout o; rc := v;
     schema_path := schema_path o |}.

Definition set_schema_path (v : option string) (o : exec_obj) : exec_obj :=
  {| exec_path := exec_path o; run_path := run_path o; scheduler := scheduler o;
     launcher := launcher o; multi := multi o; serial := serial o;
     task_keys := task_keys o; ntasks := ntasks o; img_path := img_path o;
     container := container o; nprocs_flag := nprocs_flag o; cmd := cmd o;
     stderr := stderr o; stdout := stdout o; rc := rc o;
     schema_path := v |}.

(** ** Launch planner: the functions that touch nothing but the object *)

(** [__get_nprocs_flag__]: [exec_obj.scheduler.lower()] is an attribute
    lookup on the value of [scheduler]; on [None] it raises
    [AttributeError]. *)
Definition __get_nprocs_flag__ (o : exec_obj) : outcome exec_obj :=
  match scheduler o with
  | None => Raise AttributeError
  | Some s =>
      let nprocs_flag :=
        if String.eqb (PyStr.lower s) "mpi" then
          if multi o then Some "-np" else None
        else if String.eqb (PyStr.lower s) "slurm" then
          if multi o then Some "-n" else None
        else None in
      Ok (set_nprocs_flag nprocs_flag o)
  end.

(** [__get_cmd__]. *)
Definition __get_cmd__ (o : exec_obj) : outcome exec_obj :=
  obind (__get_nprocs_flag__ o) (fun o =>
  let cmd :=
    match nprocs_flag o with
    | None => [exec_path o]
    | Some flag => [fmt (launcher o); flag; py_str (ntasks o); exec_path o]
    end in
  Ok (set_cmd cmd o)).

(** ** The operating system *)

Inductive level := INFO | WARN.

Inductive stream := STDOUT | STDERR.

(** What a child process does once spawned: the chunks it writes, in the
    order it writes them, and the code it exits with. *)
Record proc := {
  writes : list (stream * string);
  returncode : Z
}.

(** Everything the code can change. *)
Record sys := {
  files : gmap string string;          (* contents, by path as opened *)
  cwd : string;                        (* process working directory *)
  log : list (level * string);         (* what [Logger] has been told *)
  exited : list (list string * Z)      (* children waited for: argv, exit code *)
}.

(** Everything the code can only observe. *)
Record world := {
  environ : gmap string string;                   (* [os.environ] *)
  spawn : string -> list string -> option proc;   (* cwd, argv; [None]: the spawn raises *)
  writable : string -> bool;                      (* [open(path, "w")] succeeds *)
  isdir : string -> bool;
  (* [fileio_interface.fileexist], applied to the attribute's value *)
  fileexist : option string -> bool;
  (* [object_todict], [build_schema(YAML().read_yaml(...))],
     [validate_schema(..., write_table=...)] and [dict_toobject] in
     sequence; the first argument is the [write_table] keyword, [None]
     when it is left to its default *)
  apply_schema : option bool -> option string -> exec_obj -> outcome exec_obj
}.

Definition with_files (f : gmap string string) (s : sys) : sys :=
  {| files := f; cwd := cwd s; log := log s; exited := exited s |}.
Definition with_cwd (d : string) (s : sys) : sys :=
  {| files := files s; cwd := d; log := log s; exited := exited s |}.
Definition with_log (l : list (level * string)) (s : sys) : sys :=
  {| files := files s; cwd := cwd s; log := l; exited := exited s |}.
Definition with_exited (l : list (list string * Z)) (s : sys) : sys :=
  {| files := files s; cwd := cwd s; log := log s; exited := l |}.

(** ** State and exception monad *)

Definition M (A : Type) : Type := sys -> outcome A * sys.

Definition ret {A} (a : A) : M A := fun s => (Ok a, s).

Definition raise {A} (e : exn) : M A := fun s => (Raise e, s).

Definition bind {A B} (m : M A) (k : A -> M B) : M B :=
  fun s =>
    match m s with
    | (Ok a, s') => k a s'
    | (Raise e, s') => (Raise e, s')
    end.

Definition lift {A} (x : outcome A) : M A := fun s => (x, s).

(** [try: m except <the exceptions h accepts>: h e]. *)
Definition try_except {A} (m : M A) (h : exn -> option (M A)) : M A :=
  fun s =>
    match m s with
    | (Ok a, s') => (Ok a, s')
    | (Raise e, s') =>
        match h e with
        | Some k => k s'
        | None => (Raise e, s')
        end
    end.

Declare Scope py_scope.
Delimit Scope py_scope with py.
Notation "x <- m ;; k" := (bind m (fun x => k))
  (at level 100, m at next level, right associativity) : py_scope.
Notation "m ;;; k" := (bind m (fun _ => k))
  (at level 100, right associativity) : py_scope.
Open Scope py_scope.

Definition logger (lv : level) (msg : string) : M unit :=
  fun s => (Ok tt, with_log (log s ++ [(lv, msg)])%list s).

(** The text a child wrote to one of its streams. *)
Fixpoint written (st : stream) (ws : list (stream * string)) : string :=
  match ws with
  | [] => ""
  | (STDOUT, d) :: ws' =>
      match st with STDOUT => d +:+ written st ws' | STDERR => written st ws' end
  | (STDERR, d) :: ws' =>
      match st with STDERR => d +:+ written st ws' | STDOUT => written st ws' end
  end.

(** [subprocess.Popen(cmd, stderr=PIPE, stdout=PIPE)] followed by
    [communicate()]. *)
Definition popen_communicate (w : world) (argv : list string) : M proc :=
  fun s =>
    match spawn w (cwd s) argv with
    | None => (Raise OSError, s)
    | Some p => (Ok p, with_exited (exited s ++ [(argv, returncode p)])%list s)
    end.

(** ** [tools/parser_interface.py] *)

Definition enviro_get (w : world) (envvar : string) : option string :=
  if bool_decide (is_Some (environ w !! envvar))
  then environ w !! envvar
  else None.

(** ** [tools/system_interface.py] *)

(** [out.rstrip().decode().split()[2]].  The bytes are kept as they are:
    decoding is the identity on ASCII output. *)
Definition app_path (w : world) (app : string) : M (option string) :=
  let cmd := ["command"; "-V"; app] in
  p <- popen_communicate w cmd ;;
  let out := written STDOUT (writes p) in
  if (0 <? String.length out)%nat then
    match PyStr.split (PyStr.rstrip out) !! 2%nat with
    | Some path => ret (Some path)
    | None => raise IndexError
    end
  else ret None.

(** ** [execute/executable_interface.py]: launch planner *)

(** The [for] loop of [__check_exectype__] over [task_keys]; [ntasks] is
    the local variable, [None] while it is unbound. *)
Fixpoint probe_task_keys (w : world) (keys : list string)
    (ntasks : option pyval) : option pyval :=
  match keys with
  | [] => ntasks
  | item :: keys' =>
      match enviro_get w item with
      | Some value => Some (PyStr value)
      | None => probe_task_keys w keys' ntasks
      end
  end.

Definition zero_tasks_msg : string :=
  "For parallel/multi-processor applications, the total " +:+
  "number of available tasks must be non-zero. Aborting!!!".

(** Reading a local variable: unbound raises [UnboundLocalError]. *)
Definition read_local {A} (x : option A) : outcome A :=
  match x with
  | Some a => Ok a
  | None => Raise UnboundLocalError
  end.

Definition __check_exectype__ (w : world) (o : exec_obj) : outcome exec_obj :=
  let o := if negb (multi o || serial o) then set_serial true o else o in
  obind
    (if multi o then
       let ntasks := probe_task_keys w (task_keys o) None in
       obind (read_local ntasks) (fun v =>
       if py_eq v (PyInt 0)
       then Raise (ExecutableInterfaceError zero_tasks_msg)
       else Ok ntasks)
     else Ok None)
    (fun ntasks =>
  let ntasks := if serial o then Some (PyInt 1) else ntasks in
  obind (read_local ntasks) (fun v =>
  Ok (set_ntasks v o))).

(** [str(list_of_str)], without the escapes of [repr]. *)
Fixpoint py_repr_items (l : list string) : string :=
  match l with
  | [] => ""
  | [x] => "'" +:+ x +:+ "'"
  | x :: l' => "'" +:+ x +:+ "', " +:+ py_repr_items l'
  end.

(** [str(errmsg)] for the exception [subprocess.run(check=True)] raises,
    as worded for a positive exit status and arguments that [repr] only
    puts between quotes. *)
Definition str_CalledProcessError (argv : list string) (status : Z) : string :=
  "Command '[" +:+ py_repr_items argv +:+ "]' returned non-zero exit status "
  +:+ pretty status +:+ ".".

Definition nl : string := String (ascii_of_nat 10) "".

(** The argument vector handed to the operating system: an entry that is
    [None] is refused with [TypeError] before anything is spawned. *)
Fixpoint fsencode_all (cmd : list (option string)) : outcome (list string) :=
  match cmd with
  | [] => Ok []
  | None :: _ => Raise TypeError
  | Some a :: cmd' => obind (fsencode_all cmd') (fun l => Ok (a :: l))
  end.

(** [subprocess.run(cmd, check=True, stderr=PIPE, stdout=PIPE)]. *)
Definition subprocess_run_check (w : world) (cmd : list (option string)) : M proc :=
  argv <- lift (fsencode_all cmd) ;;
  p <- popen_communicate w argv ;;
  if returncode p =? 0 then ret p
  else raise (CalledProcessError argv (returncode p)).

Definition __check_sifimg__ (w : world) (o : exec_obj) : M exec_obj :=
  if negb (fileexist w (img_path o)) then
    raise (ExecutableInterfaceError
      ("The Singularity container path " +:+ fmt (img_path o) +:+ " " +:+
       "does not exist. Aborting!!!"))
  else
    check <- try_except
      (simgexec <- app_path w "singularity" ;;
       let cmd := [simgexec; Some "inspect"; Some "--quiet"; img_path o] in
       try_except
         (subprocess_run_check w cmd ;;;
          ret true)
         (fun e =>
            match e with
            | CalledProcessError argv status => Some (
                logger INFO
                  ("Singularity application check yielded the following message:"
                   +:+ nl +:+ nl +:+ str_CalledProcessError argv status
                   +:+ nl +:+ nl +:+
                   "The Singularity container " +:+ fmt (img_path o) +:+ " will "
                   +:+ "not be used for the requested executable application "
                   +:+ exec_path o +:+ ".") ;;;
                ret false)
            | _ => None
            end))
      (fun e =>
         match e with
         | AttributeError => Some (ret false)
         | _ => None
         end) ;;
    ret (set_container check o).

Definition __launcher (w : world) (o : exec_obj) : M exec_obj :=
  match launcher o with
  | None =>
      launcher <-
        match scheduler o with
        | Some s =>
            if String.eqb (PyStr.lower s) "mpi" then app_path w "mpirun"
            else if String.eqb (PyStr.lower s) "slurm" then app_path w "srun"
            else raise (ExecutableInterfaceError
                   ("The job scheduler type " +:+ PyStr.upper s +:+ " " +:+
                    "is not recognized. Aborting!!!"))
        | None =>
            logger WARN
              ("The respective platform does not specify a scheduler; " +:+
               "all compiled executables will be assumed serial.") ;;;
            ret None
        end ;;
      ret (set_launcher launcher o)
  | Some _ => ret o
  end.

(** ** [execute/executable_interface.py]: process runner *)

(** An open file object, named by the path it was opened on. *)
Definition handle := string.

(** [open(path, "w", encoding="utf-8")]: creates or truncates. *)
Definition open_w (w : world) (path : string) : M handle :=
  fun s =>
    if writable w path
    then (Ok path, with_files (<[path := ""]> (files s)) s)
    else (Raise OSError, s).

Definition append_to (h : handle) (d : string) (f : gmap string string)
    : gmap string string :=
  <[h := default "" (f !! h) +:+ d]> f.

(** The child's writes land in the file objects it was given, in the
    order the child makes them. *)
Fixpoint deliver (stderr stdout : handle) (ws : list (stream * string))
    (f : gmap string string) : gmap string string :=
  match ws with
  | [] => f
  | (STDOUT, d) :: ws' => deliver stderr stdout ws' (append_to stdout d f)
  | (STDERR, d) :: ws' => deliver stderr stdout ws' (append_to stderr d f)
  end.

(** [proc = subprocess.Popen(cmd, stderr=stderr, stdout=stdout)],
    [proc.wait()], [proc.returncode].  Of what the child does, its
    writes to the two streams and its exit status are recorded, and a
    file is named by the path it was opened on. *)
Definition Popen_wait (w : world) (argv : list string)
    (stderr stdout : handle) : M Z :=
  fun s =>
    match spawn w (cwd s) argv with
    | None => (Raise OSError, s)
    | Some p =>
        (Ok (returncode p),
         with_exited (exited s ++ [(argv, returncode p)])%list
           (with_files (deliver stderr stdout (writes p) (files s)) s))
    end.

(** Modelled from the spec: [fileio_interface.chdir] is not among the
    sources.  The working directory is [path] while [body] runs and is
    put back afterwards, also when [body] raises; a [path] that is not a
    directory raises before [body] starts. *)
Definition chdir {A} (w : world) (path : string) (body : M A) : M A :=
  fun s =>
    if isdir w path then
      let prev := cwd s in
      let '(r, s') := body (with_cwd path s) in
      (r, with_cwd prev s')
    else (Raise OSError, s).

(** [__redirect__], a context manager: [body] is the block under [with],
    given the object as the defaults left it and the pair that is
    yielded.  The pair is [(stderr, stderr)]: the file object opened on
    the [stdout] path is bound but not yielded. *)
Definition __redirect__ {A} (w : world) (o : exec_obj)
    (body : exec_obj -> handle * handle -> M A) : M A :=
  o <- match stderr o with
       | None =>
           let o := set_stderr (Some (PyStr.path_join (run_path o) "stderr.log")) o in
           logger WARN ("Setting `stderr` path to " +:+ fmt (stderr o) +:+ ".") ;;;
           ret o
       | Some _ => ret o
       end ;;
  o <- match stdout o with
       | None =>
           let o := set_stdout (Some (PyStr.path_join (run_path o) "stdout.log")) o in
           logger WARN ("Setting `stdout` path to " +:+ fmt (stdout o) +:+ ".") ;;;
           ret o
       | Some _ => ret o
       end ;;
  stderr <- open_w w (fmt (stderr o)) ;;
  stdout <- open_w w (fmt (stdout o)) ;;
  body o (stderr, stderr).

Definition run_failed_msg (o : exec_obj) : string :=
  "Executable " +:+ exec_path o +:+ " failed with error code " +:+
  fmt (pretty <$> rc o) +:+ "; " +:+
  "the error log is available at " +:+ fmt (stderr o) +:+ ". Aborting!!!".

Definition run_done_msg (o : exec_obj) : string :=
  "Executable " +:+ exec_path o +:+ " completed with return code " +:+
  fmt (pretty <$> rc o) +:+ "." +:+ nl +:+
  "Executable " +:+ exec_path o +:+ " `stderr` written to path " +:+
  fmt (stderr o) +:+ nl +:+ "." +:+
  "Executable " +:+ exec_path o +:+ " `stdout` written to path " +:+
  fmt (stdout o) +:+ ".".

Definition __run (w : world) (o : exec_obj) : M exec_obj :=
  o <- lift (__get_cmd__ o) ;;
  logger INFO ("Launching executable " +:+ exec_path o +:+ " in path " +:+
               run_path o +:+ ".") ;;;
  o <- __redirect__ w o (fun o '(stderr, stdout) =>
         chdir w (run_path o)
           (returncode <- Popen_wait w (cmd o) stderr stdout ;;
            ret (set_rc (Some returncode) o))) ;;
  if negb (bool_decide (rc o = Some 0)) then
    raise (ExecutableInterfaceError (run_failed_msg o))
  else
    logger INFO (run_done_msg o) ;;;
    ret o.

(** ** [execute/executable_interface.py]: schema stages and decorator *)

(** [os.path.join(root, "execute", "schema", "executable.schema.yaml")];
    a [root] that is [None] raises [TypeError]. *)
Definition schema_join (root : option string) : outcome string :=
  match root with
  | None => Raise TypeError
  | Some r =>
      Ok (PyStr.path_join (PyStr.path_join (PyStr.path_join r "execute") "schema")
            "executable.schema.yaml")
  end.

Definition str_TypeError : string :=
  "expected str, bytes or os.PathLike object, not NoneType".

Definition __schema (w : world) (o : exec_obj) : M exec_obj :=
  schema_path <- try_except
    (lift (schema_join (enviro_get w "PYUTILS_ROOT")))
    (fun e =>
       match e with
       | TypeError => Some (raise (ExecutableInterfaceError
           ("Defining the executable schema path failed with error " +:+
            "`" +:+ str_TypeError +:+ "`; please check that the environment variable "
            +:+ "`PYUTILS_ROOT` is defined within the run-time environment. "
            +:+ "Aborting!!!")))
       | _ => None
       end) ;;
  if negb (fileexist w (Some schema_path)) then
    raise (ExecutableInterfaceError
      ("The YAML-formatted schema file path " +:+ schema_path +:+ " " +:+
       "does not exist. Aborting!!!"))
  else
    logger INFO ("Schema file is " +:+ schema_path +:+ ".") ;;;
    ret (set_schema_path (Some schema_path) o).

Definition __setup (w : world) (o : exec_obj) : M exec_obj :=
  lift (apply_schema w (Some false) (schema_path o) o).

Definition __validate (w : world) (o : exec_obj) : M exec_obj :=
  o <- match img_path o with
       | Some _ => __check_sifimg__ w o
       | None => ret o
       end ;;
  o <- lift (__check_exectype__ w o) ;;
  lift (apply_schema w None (schema_path o) o).

(** What a call of a function can return to [wrapper_function] and what
    awaiting can yield. *)
Inductive coroutine (A : Type) :=
| Coroutine (body : M A).
Arguments Coroutine {A} body.

(** [await c]: the body runs now. *)
Definition await {A} (c : coroutine A) : M A :=
  match c with
  | Coroutine body => body
  end.

Inductive retval :=
| RNone
| RObj (o : exec_obj).

Section Decorator.

(** The positional and keyword arguments passed through to the builder. *)
Variable args : Type.

(** A builder is a [def], whose call runs its body, or an [async def],
    whose call only makes a coroutine object. *)
Inductive callable :=
| Def (body : args -> M exec_obj)
| AsyncDef (body : args -> M exec_obj).

Definition iscoroutinefunction (func : callable) : bool :=
  match func with
  | Def _ => false
  | AsyncDef _ => true
  end.

Definition body_of (func : callable) : args -> M exec_obj :=
  match func with
  | Def body => body
  | AsyncDef body => body
  end.

(** Calling the builder: a [def] runs its body; an [async def] hands
    back a coroutine object. *)
Definition call (func : callable) (a : args) : M exec_obj :=
  body_of func a.

Definition call_async (func : callable) (a : args) : coroutine exec_obj :=
  Coroutine (body_of func a).

(** The body of [wrapper_function]; it ends without a [return]. *)
Definition wrapper_body (w : world) (func : callable) (a : args) : M retval :=
  exec_obj <-
    (if iscoroutinefunction func
     then await (call_async func a)
     else call func a) ;;
  exec_obj <- __schema w exec_obj ;;
  exec_obj <- __setup w exec_obj ;;
  exec_obj <- __launcher w exec_obj ;;
  exec_obj <- __validate w exec_obj ;;
  exec_obj <- __run w exec_obj ;;
  ret RNone.

(** [app_exec(func)] is [wrapper_function], an [async def]: calling it
    makes the coroutine and runs nothing. *)
Definition app_exec (w : world) (func : callable) (a : args)
    : M (coroutine retval) :=
  ret (Coroutine (wrapper_body w func a)).

End Decorator.
Arguments Def {args} body.
Arguments AsyncDef {args} body.
Arguments iscoroutinefunction {args} func.
Arguments body_of {args} func.
Arguments call {args} func a.
Arguments call_async {args} func a.
Arguments wrapper_body {args} w func a.
Arguments app_exec {args} w func a.

(** ** [tools/parser_interface.py]: the helpers on lists, strings and
    dictionaries

    Values are atoms ([None], a [bool], an [int], a [str]) or flat lists
    of atoms; a [dict] with [str] keys is a finite map, which is all a
    lookup, a membership test or an equality of dictionaries can see. *)

Module Parser.

Inductive atom :=
| ANone
| ABool (b : bool)
| AInt (z : Z)
| AStr (s : string).

Inductive value :=
| VAtom (a : atom)
| VList (l : list atom).

#[export] Instance atom_eq_dec : EqDecision atom.
Proof. solve_decision. Defined.

(** The exceptions of this module: its own, and the built-in ones. *)
Inductive pexn :=
| ParserInterfaceError (msg : string)
| Builtin (e : exn).

Inductive result (A : Type) :=
| Return (a : A)
| Raises (e : pexn).
Arguments Return {A} a.
Arguments Raises {A} e.

(** [str(argval)] for an atom. *)
Definition str (a : atom) : string :=
  match a with
  | ANone => "None"
  | ABool true => "True"
  | ABool false => "False"
  | AInt z => pretty z
  | AStr s => s
  end.

(** [enviro_set]: [os.environ[envvar] = ...] takes a [str] and nothing
    else; [",".join] takes [str] items and nothing else. *)
Fixpoint join_items (sep : string) (items : list atom) : outcome string :=
  match items with
  | [] => Ok ""
  | [AStr s] => Ok s
  | AStr s :: items' => obind (join_items sep items') (fun r => Ok (s +:+ sep +:+ r))
  | _ :: _ => Raise TypeError
  end.

Definition has_char (c : ascii) (s : string) : bool :=
  existsb (Ascii.eqb c) (list_ascii_of_string s).

(** [os.environ[envvar] = v]: [v] must be a [str]; a NUL in the name or
    in the value and an [=] in the name are refused with [ValueError],
    an empty name with [OSError]. *)
Definition environ_setitem (env : gmap string string) (envvar : string)
    (v : atom) : outcome (gmap string string) :=
  match v with
  | AStr s =>
      if has_char Ascii.zero envvar || has_char Ascii.zero s then Raise ValueError
      else if has_char "=" envvar then Raise ValueError
      else if String.eqb envvar "" then Raise OSError
      else Ok (<[envvar := s]> env)
  | _ => Raise TypeError
  end.

Definition enviro_set (env : gmap string string) (envvar : string)
    (value : value) : outcome (gmap string string) :=
  match value with
  | VList items =>
      obind (join_items "," items) (fun s => environ_setitem env envvar (AStr s))
  | VAtom a => environ_setitem env envvar a
  end.

(** [any(iterator)]: consumes the iterator up to and including the first
    true item; the second component is what is left of it. *)
Fixpoint any_iter (iterator : list bool) : bool * list bool :=
  match iterator with
  | [] => (false, [])
  | x :: rest => if x then (true, rest) else any_iter rest
  end.

Definition singletrue (bool_list : list bool) : bool :=
  let iterator := bool_list in
  let '(has_true, iterator) := any_iter iterator in
  let '(has_another_true, _) := any_iter iterator in
  has_true && negb has_another_true.

(** [true_or_false]: ["TRUE".startswith(string)]. *)
Definition true_or_false (argval : atom) : option bool :=
  let string := PyStr.upper (str argval) in
  if PyStr.startswith string "TRUE" then Some true
  else if PyStr.startswith string "FALSE" then Some false
  else None.

(** [key.replace(" ", "")]. *)
Fixpoint remove_spaces (s : string) : string :=
  match s with
  | EmptyString => EmptyString
  | String c s' => if Ascii.eqb c " " then remove_spaces s' else String c (remove_spaces s')
  end.

(** [unique_list]: the generator filters against [out_list], which is
    empty while it runs; [OrderedDict.fromkeys] keeps one key per
    distinct string; the keys are sorted and then stripped of spaces. *)
Definition unique_list (in_list : list string) : list string :=
  let out_dict := remove_dups in_list in
  map remove_spaces (merge_sort String.le out_dict).

(** [string_parser], one turn of its loop.  A [str] is encoded to
    [bytes] for the type tests, so neither the [bool] nor the [str]
    branch applies to it, and [value.rsplit()[0]] is then its first
    word; any other atom has no [rsplit] and is kept. *)
Definition parse_item (value : atom) : outcome atom :=
  match value with
  | AStr s =>
      match PyStr.split s with
      | word :: _ => Ok (AStr word)
      | [] => Raise IndexError
      end
  | _ => Ok value
  end.

Fixpoint parse_items (in_list : list atom) : outcome (list atom) :=
  match in_list with
  | [] => Ok []
  | value :: in_list' =>
      obind (parse_item value) (fun value =>
      obind (parse_items in_list') (fun out_list => Ok (value :: out_list)))
  end.

Definition string_parser (in_list : list atom) (remove_comma : bool)
    : outcome (list atom) :=
  obind (parse_items in_list) (fun out_list =>
  Ok (if remove_comma
      then filter (fun item => item <> AStr ",") out_list
      else out_list)).

(** [s.split(",")]: the fields between commas, empty ones included. *)
Fixpoint split_on_go (sep : ascii) (l cur : list ascii) : list string :=
  match l with
  | [] => [string_of_list_ascii (rev cur)]
  | c :: l' =>
      if Ascii.eqb c sep
      then string_of_list_ascii (rev cur) :: split_on_go sep l' []
      else split_on_go sep l' (c :: cur)
  end.

Definition split_on (sep : ascii) (s : string) : list string :=
  split_on_go sep (list_ascii_of_string s) [].

(** [max] and [min] of a non-empty list of [str]; any other item makes
    the comparison raise [TypeError]. *)
Fixpoint extremum (better : string -> string -> bool) (best : string)
    (l : list atom) : outcome atom :=
  match l with
  | [] => Ok (AStr best)
  | AStr s :: l' => extremum better (if better s best then s else best) l'
  | _ :: _ => Raise TypeError
  end.

Definition py_max (l : list atom) : outcome atom :=
  match l with
  | AStr s :: l' => extremum (fun x best => String.ltb best x) s l'
  | _ => Raise TypeError
  end.

Definition py_min (l : list atom) : outcome atom :=
  match l with
  | AStr s :: l' => extremum (fun x best => String.ltb x best) s l'
  | _ => Raise TypeError
  end.

(** [value[index_value]] on a list: a negative index counts from the end. *)
Definition py_index (l : list atom) (i : Z) : outcome atom :=
  let n := Z.of_nat (List.length l) in
  let j := if i <? 0 then i + n else i in
  if (j <? 0) || (n <=? j) then Raise IndexError
  else match l !! Z.to_nat j with
       | Some a => Ok a
       | None => Raise IndexError
       end.

Definition lift_outcome {A} (x : outcome A) : result A :=
  match x with
  | Ok a => Return a
  | Raise e => Raises (Builtin e)
  end.

Definition both_extrema_msg : string :=
  "The user has requested both minimum and maximum list " +:+
  "value; please check that only one threshold value is " +:+
  "is to be sought from the list. Aborting!!!".

Definition index_and_max_msg : string :=
  "The user has selected both a single value (as per " +:+
  "the specified index) and the maximum list value; " +:+
  "please check which criteria to fulfill. Aborting!!!".

Definition index_and_min_msg : string :=
  "The user has selected both a single value (as per " +:+
  "the specified index) and the minimum list value; " +:+
  "please check which criteria to fulfill. Aborting!!!".

(** The inner [try] of [dict_key_value] for a value that is there.  Only
    a [str] has [split]; for anything else the [AttributeError] handler
    hands the value back as it is.  After the checks on entry at most one
    of [max_value], [min_value] and [index_value] is in force. *)
Definition split_value (v : value) (max_value min_value : bool)
    (index_value : option Z) : result value :=
  match v with
  | VAtom (AStr s) =>
      let in_list := map AStr (split_on "," s) in
      match string_parser in_list false with
      | Raise e => Raises (Builtin e)
      | Ok value =>
          if max_value then lift_outcome (obind (py_max value) (fun a => Ok (VAtom a)))
          else if min_value then lift_outcome (obind (py_min value) (fun a => Ok (VAtom a)))
          else match index_value with
               | Some i => lift_outcome (obind (py_index value i) (fun a => Ok (VAtom a)))
               | None => Return (VList value)
               end
      end
  | _ => Return v
  end.

Definition dict_key_value (dict_in : gmap string value) (key : string)
    (force max_value min_value : bool) (index_value : option Z)
    (no_split : bool) : result value :=
  if max_value && min_value then Raises (ParserInterfaceError both_extrema_msg)
  else if bool_decide (is_Some index_value) && max_value
  then Raises (ParserInterfaceError index_and_max_msg)
  else if bool_decide (is_Some index_value) && min_value
  then Raises (ParserInterfaceError index_and_min_msg)
  else
    match dict_in !! key with
    | Some value =>
        if no_split then Return value
        else split_value value max_value min_value index_value
    | None =>
        if negb force then
          Raises (ParserInterfaceError
            ("Key " +:+ key +:+ " could not be found in user provided dictionary. "
             +:+ "Aborting!!!"))
        else Return (VAtom ANone)
    end.

(** [update_dict]: one turn of the loop over the keys of [default_dict],
    and the loop. *)
Definition update_step (default_dict : gmap string value) (update_none : bool)
    (key : string) (output_dict : gmap string value)
    : result (gmap string value) :=
  if bool_decide (is_Some (output_dict !! key)) then Return output_dict
  else
    match dict_key_value default_dict key true false false None true with
    | Raises e => Raises e
    | Return value =>
        if negb update_none then Return (<[key := value]> output_dict)
        else Return output_dict
    end.

Definition update_dict (default_dict base_dict : gmap string value)
    (update_none : bool) : result (gmap string value) :=
  map_fold
    (fun key _ acc =>
       match acc with
       | Return output_dict => update_step default_dict update_none key output_dict
       | Raises e => Raises e
       end)
    (Return base_dict) default_dict.

(** [str.islower()] and [str.isupper()] on ASCII letters: some cased
    letter, and none of the other case. *)
Definition is_lower_letter (c : ascii) : bool :=
  let n := N_of_ascii c in ((97 <=? n) && (n <=? 122))%N.

Definition is_upper_letter (c : ascii) : bool :=
  let n := N_of_ascii c in ((65 <=? n) && (n <=? 90))%N.

Definition islower (s : string) : bool :=
  existsb is_lower_letter (list_ascii_of_string s)
  && negb (existsb is_upper_letter (list_ascii_of_string s)).

Definition isupper (s : string) : bool :=
  existsb is_upper_letter (list_ascii_of_string s)
  && negb (existsb is_lower_letter (list_ascii_of_string s)).

(** The first string of [l] that [test] accepts: a [for] loop that
    assigns and breaks. *)
Fixpoint first_match (test : string -> bool) (l : list string) : option string :=
  match l with
  | [] => None
  | string :: l' => if test string then Some string else first_match test l'
  end.

(** What [match_list] returns as [match_str]: a string or [None] when
    [exact], a list otherwise. *)
Inductive matched :=
| Exact (s : option string)
| Several (l : list string).

Definition match_list (in_list : list string) (match_string : string)
    (exact : bool) : bool * matched :=
  let lower_list := List.filter islower in_list in
  let upper_list := List.filter isupper in_list in
  let mixed_list :=
    List.filter (fun word => negb (islower word) && negb (isupper word)) in_list in
  let same := fun string =>
    String.eqb (PyStr.lower match_string) (PyStr.lower string) in
  let within := fun string =>
    PyStr.containsb (PyStr.lower match_string) (PyStr.lower string) in
  if exact then
    let st := (false, None) in
    let st := match first_match same lower_list with
              | Some s => (true, Some s) | None => st end in
    let st := match first_match within upper_list with
              | Some s => (true, Some s) | None => st end in
    let st := match first_match same mixed_list with
              | Some s => (true, Some s) | None => st end in
    (fst st, Exact (snd st))
  else
    let match_str :=
      (List.filter within lower_list ++ List.filter within upper_list
       ++ List.filter within mixed_list)%list in
    ((0 <? List.length match_str)%nat, Several match_str).

End Parser.

(** ** Definitions the statements are written with *)

(** Text made of ASCII characters only.  On such text [str.lower],
    [str.upper], [str.islower], [str.isupper], [str.split] and the
    comparison of strings are what [PyStr] and [Parser] define, and
    encoding and decoding never fail. *)
Definition is_ascii (s : string) : Prop :=
  forallb (fun c => (N_of_ascii c <? 128)%N) (list_ascii_of_string s) = true.

(** What [command -V app] prints on this host is ASCII text, so that
    decoding it cannot fail and [str.split] cuts it where [PyStr.split]
    does. *)
Definition probe_is_ascii (w : world) (st : sys) (app : string) : Prop :=
  forall p, spawn w (cwd st) ["command"; "-V"; app] = Some p ->
            is_ascii (written STDOUT (writes p)).

(** A name and a value that [os.environ] accepts under every locale. *)
Definition env_name_ok (s : string) : Prop :=
  s <> "" /\ is_ascii s /\
  Parser.has_char "=" s = false /\ Parser.has_char Ascii.zero s = false.

Definition env_value_ok (s : string) : Prop :=
  is_ascii s /\ Parser.has_char Ascii.zero s = false.

(** The flag that goes with a scheduler name and the [multi] attribute. *)
Definition flag_of (s : string) (mlt : bool) : option string :=
  if String.eqb (PyStr.lower s) "mpi" then (if mlt then Some "-np" else None)
  else if String.eqb (PyStr.lower s) "slurm" then (if mlt then Some "-n" else None)
  else None.

(** A Configuration Object is resolved for assembly when it is what flag
    resolution returned. *)
Definition flag_resolved (o : exec_obj) : Prop :=
  exists o0, __get_nprocs_flag__ o0 = Ok o.

(** The values of the bound entries of [keys], in the order of [keys]. *)
Definition bound_values (w : world) (keys : list string) : list string :=
  omap (fun k => environ w !! k) keys.

(** The world with its environment replaced, as after [enviro_set]. *)
Definition with_environ (env : gmap string string) (w : world) : world :=
  {| environ := env; spawn := spawn w; writable := writable w; isdir := isdir w;
     fileexist := fileexist w; apply_schema := apply_schema w |}.

(** The separator [os.path.join] puts after a first component. *)
Definition sep_after (a : string) : string :=
  if (String.eqb a "" || PyStr.endswith_slash a)%bool then "" else "/".

(** A word: a non-empty string without a character [str.split()] splits
    on.  A blank string: nothing but such characters. *)
Definition is_word (s : string) : Prop :=
  s <> "" /\ Forall (fun c => PyStr.str_isspace c = false) (list_ascii_of_string s).

Definition is_blank (s : string) : Prop :=
  Forall (fun c => PyStr.str_isspace c = true) (list_ascii_of_string s).

(** What [string_parser] makes of an item: the first word of a [str],
    the item itself otherwise. *)
Definition first_word_of (item out : Parser.atom) : Prop :=
  match item with
  | Parser.AStr s =>
      exists word, out = Parser.AStr word /\ is_word word /\
                   head (PyStr.split s) = Some word
  | _ => out = item
  end.

(** An item whose text, when it is a [str], is made of ASCII characters. *)
Definition ascii_atom (a : Parser.atom) : Prop :=
  match a with
  | Parser.AStr s => is_ascii s
  | _ => True
  end.

(** The switches of [dict_key_value] that pass its checks on entry. *)
Definition switches_ok (max_value min_value : bool) (index_value : option Z)
    : Prop :=
  (max_value = false \/ min_value = false) /\
  (index_value <> None -> max_value = false /\ min_value = false).

(** A field of a comma-separated value: a word without a comma. *)
Definition is_field (s : string) : Prop :=
  is_word s /\ ~ In ","%char (list_ascii_of_string s).

(** The paths the two log files are opened on. *)
Definition stderr_path (o : exec_obj) : string :=
  match stderr o with
  | Some p => p
  | None => PyStr.path_join (run_path o) "stderr.log"
  end.

Definition stdout_path (o : exec_obj) : string :=
  match stdout o with
  | Some p => p
  | None => PyStr.path_join (run_path o) "stdout.log"
  end.

(** Everything a child wrote, whatever the stream, in the order written. *)
Fixpoint all_written (ws : list (stream * string)) : string :=
  match ws with
  | [] => ""
  | (_, d) :: ws' => d +:+ all_written ws'
  end.

(** The six stages as the specification words them: the builder, then an
    ordered list of stage functions, each taking and returning the
    Configuration Object, run by one driver loop. *)
Definition stages (w : world) : list (exec_obj -> M exec_obj) :=
  [__schema w; __setup w; __launcher w; __validate w; __run w].

Fixpoint drive (l : list (exec_obj -> M exec_obj)) (o : exec_obj) : M exec_obj :=
  match l with
  | [] => ret o
  | stage :: l' => bind (stage o) (drive l')
  end.

Definition pipeline {args} (w : world) (func : callable args) (a : args)
    : M exec_obj :=
  bind (body_of func a) (drive (stages w)).

(** What awaiting hands back for a pipeline outcome: the object is
    dropped. *)
Definition discard (r : outcome exec_obj) : outcome retval :=
  match r with
  | Ok _ => Ok RNone
  | Raise e => Raise e
  end.

(** ** Concrete objects and worlds used by the examples *)

Module Sample.

Definition cfg (sched launch : option string) (mlt ser : bool)
    (keys : list string) (img : option string) : exec_obj :=
  {| exec_path := "/opt/bin/model.x"; run_path := "/scratch/run";
     scheduler := sched; launcher := launch; multi := mlt; serial := ser;
     task_keys := keys; ntasks := PyNone; img_path := img;
     container := false; nprocs_flag := None; cmd := [];
     stderr := None; stdout := None; rc := None; schema_path := None |}.

Definition sys0 : sys :=
  {| files := ∅; cwd := "/home/user"; log := []; exited := [] |}.

(** A host on which [command -V] finds nothing and every other spawn
    fails. *)
Definition bare (env : gmap string string) : world :=
  {| environ := env;
     spawn := fun _ argv =>
       match argv with
       | ["command"; "-V"; app] =>
           Some {| writes := [(STDERR, "command: " +:+ app +:+ ": not found" +:+ nl)];
                   returncode := 1 |}
       | _ => None
       end;
     writable := fun _ => true;
     isdir := fun _ => true;
     fileexist := fun _ => true;
     apply_schema := fun _ _ o => Ok o |}.

(** A host on which [command -V app] answers [app is /usr/bin/app] and
    [exec] behaves as [p]. *)
Definition host (env : gmap string string) (exec : string) (p : proc) : world :=
  {| environ := env;
     spawn := fun _ argv =>
       match argv with
       | ["command"; "-V"; app] =>
           Some {| writes := [(STDOUT, app +:+ " is /usr/bin/" +:+ app +:+ nl)];
                   returncode := 0 |}
       | [x] => if String.eqb x exec then Some p else None
       | _ => None
       end;
     writable := fun _ => true;
     isdir := fun _ => true;
     fileexist := fun _ => true;
     apply_schema := fun _ _ o => Ok o |}.

End Sample.

Module SifSample.

Definition img : string := "/images/model.sif".

Definition o : exec_obj :=
  Sample.cfg (Some "slurm") None false true [] (Some img).

(** A host with [singularity] installed, whose [inspect] exits with
    [status]. *)
Definition with_singularity (status : Z) : world :=
  {| environ := ∅;
     spawn := fun _ argv =>
       match argv with
       | ["command"; "-V"; app] =>
           Some {| writes := [(STDOUT, app +:+ " is /usr/bin/" +:+ app +:+ nl)];
                   returncode := 0 |}
       | ["/usr/bin/singularity"; "inspect"; "--quiet"; _] =>
           Some {| writes := []; returncode := status |}
       | _ => None
       end;
     writable := fun _ => true;
     isdir := fun _ => true;
     fileexist := fun _ => true;
     apply_schema := fun _ _ o => Ok o |}.

(** A host on which the shell knows where [singularity] is, but the
    file cannot be executed. *)
Definition not_executable : world :=
  {| environ := ∅;
     spawn := fun _ argv =>
       match argv with
       | ["command"; "-V"; app] =>
           Some {| writes := [(STDOUT, app +:+ " is /opt/" +:+ app +:+ nl)];
                   returncode := 0 |}
       | _ => None
       end;
     writable := fun _ => true;
     isdir := fun _ => true;
     fileexist := fun _ => true;
     apply_schema := fun _ _ o => Ok o |}.

End SifSample.

Module RunSample.

Definition o : exec_obj := Sample.cfg (Some "slurm") None false true [] None.

(** The executable writes [ok] to its standard output and exits 0. *)
Definition says_ok : world :=
  Sample.host ∅ "/opt/bin/model.x"
    {| writes := [(STDOUT, "ok")]; returncode := 0 |}.

(** The executable complains on its standard error and exits 7. *)
Definition exits_7 : world :=
  Sample.host ∅ "/opt/bin/model.x"
    {| writes := [(STDERR, "boom")]; returncode := 7 |}.

End RunSample.

Module PipelineSample.

Definition w : world :=
  Sample.host {["PYUTILS_ROOT" := "/opt/pyutils"]} "/opt/bin/model.x"
    {| writes := [(STDOUT, "ok")]; returncode := 0 |}.

Definition builder (_ : unit) : M exec_obj :=
  ret (Sample.cfg (Some "slurm") None false false [] None).

End PipelineSample.

(** * Properties *)

(** ** Strings *)

Section StringFacts.

Lemma append_cons (a : ascii) (s t : string) :
  String a s +:+ t = String a (s +:+ t).
Proof. reflexivity. Qed.

Lemma append_assoc (s t u : string) : (s +:+ t) +:+ u = s +:+ (t +:+ u).
Proof.
  induction s as [|a s IH]; [reflexivity|].
  rewrite !append_cons. now rewrite IH.
Qed.

Lemma append_empty_r (s : string) : s +:+ "" = s.
Proof.
  induction s as [|a s IH]; [reflexivity|].
  rewrite append_cons. now rewrite IH.
Qed.

Lemma startswith_spec (p s : string) :
  PyStr.startswith p s = true <-> exists t, s = p +:+ t.
Proof.
  revert s. induction p as [|a p IH]; intros s; simpl.
  - split; [intros _; now exists s | reflexivity].
  - destruct s as [|b s].
    + split; [discriminate | intros [t Ht]; discriminate].
    + destruct (Ascii.eqb_spec a b) as [->|Hne].
      * rewrite IH. split; intros [t Ht]; exists t.
        -- rewrite append_cons. now rewrite Ht.
        -- rewrite append_cons in Ht. now inversion Ht.
      * split; [discriminate|].
        intros [t Ht]. rewrite append_cons in Ht. congruence.
Qed.

Lemma containsb_spec (sub s : string) :
  PyStr.containsb sub s = true <-> PyStr.contains sub s.
Proof.
  unfold PyStr.contains. induction s as [|b s IH].
  - simpl. rewrite orb_false_r, startswith_spec. split.
    + intros [t Ht]. now exists "", t.
    + intros (pre & post & H). destruct pre; [now exists post|discriminate].
  - cbn [PyStr.containsb]. rewrite orb_true_iff, startswith_spec, IH. split.
    + intros [[t Ht]|(pre & post & H)].
      * now exists "", t.
      * exists (String b pre), post. rewrite append_cons. now rewrite H.
    + intros (pre & post & H). destruct pre as [|c pre].
      * left. now exists post.
      * right. rewrite append_cons in H. inversion H. now exists pre, post.
Qed.

Lemma contains_mid (pre sub post : string) :
  PyStr.contains sub (pre +:+ sub +:+ post).
Proof. now exists pre, post. Qed.

Lemma contains_app_r (sub pre s : string) :
  PyStr.contains sub s -> PyStr.contains sub (pre +:+ s).
Proof.
  intros (a & b & ->). exists (pre +:+ a), b. now rewrite append_assoc.
Qed.

Lemma contains_app_l (sub s post : string) :
  PyStr.contains sub s -> PyStr.contains sub (s +:+ post).
Proof.
  intros (a & b & ->). exists a, (b +:+ post). now rewrite !append_assoc.
Qed.

Lemma contains_refl (s : string) : PyStr.contains s s.
Proof. exists "", "". simpl. now rewrite append_empty_r. Qed.

End StringFacts.

Create HintDb pystr.
#[local] Hint Resolve contains_mid contains_app_r contains_app_l contains_refl : pystr.

(** ** Number-of-processors flag *)

Lemma get_nprocs_flag_some (o : exec_obj) (s : string) :
  scheduler o = Some s ->
  __get_nprocs_flag__ o = Ok (set_nprocs_flag (flag_of s (multi o)) o).
Proof. intros H. unfold __get_nprocs_flag__, flag_of. now rewrite H. Qed.

Lemma get_nprocs_flag_none (o : exec_obj) :
  scheduler o = None -> __get_nprocs_flag__ o = Raise AttributeError.
Proof. intros H. unfold __get_nprocs_flag__. now rewrite H. Qed.

Example flag_mpi_multi :
  __get_nprocs_flag__ (Sample.cfg (Some "mpi") None true false [] None)
  = Ok (set_nprocs_flag (Some "-np")
          (Sample.cfg (Some "mpi") None true false [] None)).
Proof. reflexivity. Qed.

Example flag_slurm_serial :
  __get_nprocs_flag__ (Sample.cfg (Some "slurm") None false true [] None)
  = Ok (set_nprocs_flag None
          (Sample.cfg (Some "slurm") None false true [] None)).
Proof. reflexivity. Qed.

(** C4, as stated, fails at two inputs.  With [scheduler = "MPI"] and
    [multi] set the flag is ["-np"], not null: the name is compared after
    [lower()].  With [scheduler = None] nothing is assigned: the call
    [exec_obj.scheduler.lower()] raises [AttributeError]. *)
Lemma nprocs_flag_claim_fails :
  (let o := Sample.cfg (Some "MPI") None true false [] None in
   scheduler o <> Some "mpi" /\ scheduler o <> Some "slurm" /\
   exists o', __get_nprocs_flag__ o = Ok o' /\ nprocs_flag o' = Some "-np") /\
  (let o := Sample.cfg None None false true [] None in
   scheduler o = None /\ __get_nprocs_flag__ o = Raise AttributeError).
Proof.
  split; cbn.
  - repeat split; try discriminate. eexists. split; reflexivity.
  - split; reflexivity.
Qed.

(** C4, amended: for every Configuration Object whose [scheduler] is a
    string, flag resolution returns, changes no field but [nprocs_flag],
    and sets it to ["-np"] when the lower-cased scheduler is ["mpi"] and
    [multi] holds, to ["-n"] when the lower-cased scheduler is ["slurm"]
    and [multi] holds, and to null otherwise: when [multi] is false, and
    when the lower-cased name is neither of the two. *)
Theorem nprocs_flag_resolution (o : exec_obj) (s : string) :
  scheduler o = Some s ->
  exists o',
    __get_nprocs_flag__ o = Ok o' /\
    o' = set_nprocs_flag (nprocs_flag o') o /\
    (PyStr.lower s = "mpi" -> multi o = true -> nprocs_flag o' = Some "-np") /\
    (PyStr.lower s = "slurm" -> multi o = true -> nprocs_flag o' = Some "-n") /\
    (multi o = false -> nprocs_flag o' = None) /\
    (PyStr.lower s <> "mpi" -> PyStr.lower s <> "slurm" -> nprocs_flag o' = None).
Proof.
  intros Hs. eexists. split; [apply (get_nprocs_flag_some _ _ Hs)|].
  cbn. unfold flag_of. repeat split.
  - intros -> ->. reflexivity.
  - intros -> ->. reflexivity.
  - intros ->. now repeat case_match.
  - intros H1 H2.
    destruct (String.eqb_spec (PyStr.lower s) "mpi"); [contradiction|].
    destruct (String.eqb_spec (PyStr.lower s) "slurm"); [contradiction|].
    reflexivity.
Qed.

Lemma nprocs_flag_resolution_witness :
  let o := Sample.cfg (Some "Slurm") None true false [] None in
  exists o',
    __get_nprocs_flag__ o = Ok o' /\ nprocs_flag o' = Some "-n".
Proof.
  cbn zeta.
  destruct (nprocs_flag_resolution
              (Sample.cfg (Some "Slurm") None true false [] None) "Slurm"
              eq_refl) as (o' & Hrun & _ & _ & Hslurm & _).
  exists o'. split; [exact Hrun|]. apply Hslurm; reflexivity.
Defined.

(** ** Command assembly *)

Lemma flag_resolved_inv (o : exec_obj) :
  flag_resolved o ->
  exists s, scheduler o = Some s /\ nprocs_flag o = flag_of s (multi o).
Proof.
  intros [o0 H]. unfold __get_nprocs_flag__ in H.
  destruct (scheduler o0) as [s|] eqn:Hs; [|discriminate].
  inversion H; subst; clear H. exists s. cbn. split; [exact Hs|reflexivity].
Qed.

Lemma set_nprocs_flag_same (o : exec_obj) :
  set_nprocs_flag (nprocs_flag o) o = o.
Proof. now destruct o. Qed.

Lemma get_cmd_resolved (o : exec_obj) :
  flag_resolved o ->
  __get_cmd__ o =
  Ok (set_cmd match nprocs_flag o with
              | None => [exec_path o]
              | Some flag => [fmt (launcher o); flag; py_str (ntasks o); exec_path o]
              end o).
Proof.
  intros H. destruct (flag_resolved_inv o H) as (s & Hs & Hf).
  unfold __get_cmd__. rewrite (get_nprocs_flag_some o s Hs), <- Hf.
  cbn [obind]. now rewrite set_nprocs_flag_same.
Qed.

Example cmd_mpi_multi :
  cmd <$> (match __get_cmd__ (set_ntasks (PyStr "4")
             (Sample.cfg (Some "mpi") (Some "/usr/bin/mpirun") true false [] None))
           with Ok o => Some o | Raise _ => None end)
  = Some ["/usr/bin/mpirun"; "-np"; "4"; "/opt/bin/model.x"].
Proof. reflexivity. Qed.

(** C5: for every Configuration Object that flag resolution has returned,
    command assembly returns, leaves every field but [cmd] as it was, and
    makes [cmd] the list [[exec_path]] when [nprocs_flag] is null and
    [[launcher, nprocs_flag, str(ntasks), exec_path]] otherwise, each
    entry rendered as the f-string renders it.  In particular, with
    [scheduler = "slurm"] and [multi] false, [cmd] is [[exec_path]]
    whatever launcher was resolved. *)
Theorem cmd_assembly (o : exec_obj) :
  (flag_resolved o ->
   exists o',
     __get_cmd__ o = Ok o' /\
     o' = set_cmd (cmd o') o /\
     (nprocs_flag o = None -> cmd o' = [exec_path o]) /\
     (forall flag, nprocs_flag o = Some flag ->
        cmd o' = [fmt (launcher o); flag; py_str (ntasks o); exec_path o] /\
        forall path, launcher o = Some path ->
          cmd o' = [path; flag; py_str (ntasks o); exec_path o])) /\
  (scheduler o = Some "slurm" -> multi o = false ->
   exists o', __get_cmd__ o = Ok o' /\ cmd o' = [exec_path o]).
Proof.
  split.
  - intros H. eexists. split; [apply (get_cmd_resolved o H)|].
    cbn. split; [reflexivity|]. split.
    + intros ->. reflexivity.
    + intros flag ->. split; [reflexivity|].
      intros path ->. reflexivity.
  - intros Hs Hm. unfold __get_cmd__.
    rewrite (get_nprocs_flag_some o "slurm" Hs), Hm. cbn.
    eexists. split; reflexivity.
Qed.

Lemma cmd_assembly_witness :
  (let o := set_nprocs_flag (Some "-np") (set_ntasks (PyInt 8)
              (Sample.cfg (Some "mpi") (Some "/usr/bin/mpirun") true false [] None)) in
   exists o', __get_cmd__ o = Ok o' /\
              cmd o' = ["/usr/bin/mpirun"; "-np"; "8"; "/opt/bin/model.x"]) /\
  (let o := Sample.cfg (Some "slurm") (Some "/usr/bin/srun") false true [] None in
   exists o', __get_cmd__ o = Ok o' /\ cmd o' = ["/opt/bin/model.x"]).
Proof.
  split; cbn zeta.
  - pose (o := set_nprocs_flag (Some "-np") (set_ntasks (PyInt 8)
              (Sample.cfg (Some "mpi") (Some "/usr/bin/mpirun") true false [] None))).
    assert (Hres : flag_resolved o).
    { exists (set_ntasks (PyInt 8)
              (Sample.cfg (Some "mpi") (Some "/usr/bin/mpirun") true false [] None)).
      reflexivity. }
    destruct (proj1 (cmd_assembly o) Hres) as (o' & Hrun & _ & _ & Hsome).
    exists o'. split; [exact Hrun|].
    exact (proj2 (Hsome "-np" eq_refl) "/usr/bin/mpirun" eq_refl).
  - exact (proj2 (cmd_assembly
             (Sample.cfg (Some "slurm") (Some "/usr/bin/srun") false true [] None))
             eq_refl eq_refl).
Defined.

(** ** Launcher resolution *)

Lemma launcher_unrecognized (w : world) (o : exec_obj) (s : string) (st : sys) :
  launcher o = None -> scheduler o = Some s ->
  PyStr.lower s <> "mpi" -> PyStr.lower s <> "slurm" ->
  __launcher w o st =
  (Raise (ExecutableInterfaceError
     ("The job scheduler type " +:+ PyStr.upper s +:+ " " +:+
      "is not recognized. Aborting!!!")), st).
Proof.
  intros Hl Hs H1 H2. unfold __launcher. rewrite Hl, Hs.
  destruct (String.eqb_spec (PyStr.lower s) "mpi"); [contradiction|].
  destruct (String.eqb_spec (PyStr.lower s) "slurm"); [contradiction|].
  reflexivity.
Qed.

(** C8, as stated, fails at two inputs.  With [scheduler = "bogus"] the
    error is raised but its message names [BOGUS], the upper-cased name,
    and the name as supplied does not occur in it.  With
    [scheduler = "MPI"], which is neither ["mpi"] nor ["slurm"], no error
    is raised: the launcher is looked up as for ["mpi"]. *)
Lemma launcher_bogus_message :
  (let o := Sample.cfg (Some "bogus") None false true [] None in
   exists msg,
     __launcher (Sample.bare ∅) o Sample.sys0
       = (Raise (ExecutableInterfaceError msg), Sample.sys0) /\
     msg = "The job scheduler type BOGUS is not recognized. Aborting!!!" /\
     ~ PyStr.contains "bogus" msg) /\
  (let o := Sample.cfg (Some "MPI") None false true [] None in
   fst (__launcher (Sample.host ∅ "" {| writes := []; returncode := 0 |})
          o Sample.sys0)
   = Ok (set_launcher (Some "/usr/bin/mpirun") o)).
Proof.
  split; cbn zeta.
  - eexists. split; [reflexivity|]. split; [reflexivity|].
    rewrite <- containsb_spec. vm_compute. discriminate.
  - vm_compute. reflexivity.
Qed.

(** C8, amended: for every Configuration Object with [launcher] unset and
    a scheduler string whose lower-casing is neither ["mpi"] nor
    ["slurm"], launcher resolution raises [ExecutableInterfaceError],
    having changed nothing; and when the scheduler name is made of ASCII
    characters, the message contains the name in upper case. *)
Theorem launcher_unrecognized_raises
    (w : world) (o : exec_obj) (s : string) (st : sys) :
  launcher o = None -> scheduler o = Some s ->
  PyStr.lower s <> "mpi" -> PyStr.lower s <> "slurm" ->
  exists msg,
    __launcher w o st = (Raise (ExecutableInterfaceError msg), st) /\
    (is_ascii s -> PyStr.contains (PyStr.upper s) msg).
Proof.
  intros Hl Hs H1 H2. eexists.
  split; [apply (launcher_unrecognized w o s st Hl Hs H1 H2)|].
  intros _. auto with pystr.
Qed.

Lemma launcher_unrecognized_raises_witness :
  is_ascii "bogus" /\
  exists msg,
    __launcher (Sample.bare ∅) (Sample.cfg (Some "bogus") None false true [] None)
      Sample.sys0 = (Raise (ExecutableInterfaceError msg), Sample.sys0) /\
    PyStr.contains "BOGUS" msg.
Proof.
  split; [reflexivity|].
  destruct (launcher_unrecognized_raises (Sample.bare ∅)
              (Sample.cfg (Some "bogus") None false true [] None) "bogus"
              Sample.sys0 eq_refl eq_refl
              ltac:(vm_compute; discriminate) ltac:(vm_compute; discriminate))
    as (msg & Hraise & Hmsg).
  exists msg. split; [exact Hraise|]. exact (Hmsg eq_refl).
Defined.

(** C9: for every Configuration Object whose [launcher] is already set,
    launcher resolution returns the object with every field as it was,
    raises nothing, and touches neither the log nor any process or file,
    whatever [scheduler] holds. *)
Theorem launcher_set_noop (w : world) (o : exec_obj) (path : string) (st : sys) :
  launcher o = Some path ->
  __launcher w o st = (Ok o, st).
Proof. intros H. unfold __launcher. now rewrite H. Qed.

Lemma launcher_set_noop_witness :
  (let o := Sample.cfg None (Some "/usr/bin/srun") true false [] None in
   __launcher (Sample.bare ∅) o Sample.sys0 = (Ok o, Sample.sys0)) /\
  (let o := Sample.cfg (Some "bogus") (Some "/usr/bin/srun") true false [] None in
   __launcher (Sample.bare ∅) o Sample.sys0 = (Ok o, Sample.sys0)).
Proof.
  split; cbn zeta.
  - apply (launcher_set_noop (Sample.bare ∅) _ "/usr/bin/srun" Sample.sys0).
    reflexivity.
  - apply (launcher_set_noop (Sample.bare ∅) _ "/usr/bin/srun" Sample.sys0).
    reflexivity.
Defined.

(** ** Task-type resolution *)

Lemma enviro_get_lookup (w : world) (k : string) :
  enviro_get w k = environ w !! k.
Proof.
  unfold enviro_get. destruct (environ w !! k) as [v|] eqn:E.
  - rewrite bool_decide_eq_true_2; [reflexivity | now exists v].
  - rewrite bool_decide_eq_false_2; [reflexivity | now intros [v Hv]].
Qed.

Lemma probe_task_keys_head (w : world) (keys : list string) :
  probe_task_keys w keys None = PyStr <$> head (bound_values w keys).
Proof.
  induction keys as [|k keys IH]; [reflexivity|].
  cbn [probe_task_keys]. rewrite enviro_get_lookup.
  unfold bound_values. cbn [omap list_omap].
  destruct (environ w !! k) as [v|]; [reflexivity|]. exact IH.
Qed.

Lemma check_exectype_multi (w : world) (o : exec_obj) (v : string) :
  multi o = true ->
  head (bound_values w (task_keys o)) = Some v ->
  __check_exectype__ w o
  = Ok (set_ntasks (if serial o then PyInt 1 else PyStr v) o).
Proof.
  intros Hm Hv. unfold __check_exectype__.
  rewrite Hm. cbn [orb negb].
  rewrite Hm, probe_task_keys_head, Hv. cbn.
  now destruct (serial o).
Qed.

Lemma check_exectype_unbound (w : world) (o : exec_obj) :
  multi o = true ->
  bound_values w (task_keys o) = [] ->
  __check_exectype__ w o = Raise UnboundLocalError.
Proof.
  intros Hm Hv. unfold __check_exectype__.
  rewrite Hm. cbn [orb negb].
  now rewrite Hm, probe_task_keys_head, Hv.
Qed.

Lemma check_exectype_serial_default (w : world) (o : exec_obj) :
  multi o = false ->
  __check_exectype__ w o = Ok (set_ntasks (PyInt 1) (set_serial true o)).
Proof.
  intros Hm. unfold __check_exectype__. rewrite Hm. cbn [orb].
  destruct (serial o) eqn:Hs; cbn; rewrite ?Hm, ?Hs; cbn; [|reflexivity].
  do 2 f_equal. destruct o; cbn in *; now subst.
Qed.

Example ntasks_is_text :
  let o := Sample.cfg (Some "slurm") None true false ["SLURM_NTASKS"] None in
  __check_exectype__ (Sample.bare {["SLURM_NTASKS" := "4"]}) o
  = Ok (set_ntasks (PyStr "4") o).
Proof. vm_compute. reflexivity. Qed.

(** C2 at its two failing inputs.  [enviro_get] hands back the text of
    the variable and [__check_exectype__] compares it with the integer
    [0]: with the only entry bound to ["0"] resolution returns, with
    [ntasks] the text ["0"].  The local [ntasks] has no value when no
    entry is bound: resolution then raises [UnboundLocalError]. *)
Lemma check_exectype_zero_not_refused :
  (let o := Sample.cfg (Some "mpi") None true false ["NTASKS"] None in
   __check_exectype__ (Sample.bare {["NTASKS" := "0"]}) o
   = Ok (set_ntasks (PyStr "0") o)) /\
  (let o := Sample.cfg (Some "mpi") None true false ["NTASKS"] None in
   __check_exectype__ (Sample.bare ∅) o = Raise UnboundLocalError).
Proof. split; vm_compute; reflexivity. Qed.

(** C6, as stated, fails at two inputs.  With [task_keys = [A, B]],
    [A] bound to ["auto"] and [B] to ["4"], [ntasks] is what [A] holds:
    the first bound entry is taken, whatever its value.  With [multi]
    and [serial] both set and the only entry bound to ["4"], [ntasks]
    is [1]. *)
Lemma ntasks_not_first_nonzero :
  (let o := Sample.cfg (Some "mpi") None true false ["A"; "B"] None in
   exists o',
     __check_exectype__ (Sample.bare {["A" := "auto"; "B" := "4"]}) o = Ok o' /\
     ntasks o' = PyStr "auto" /\ py_str (ntasks o') <> "4") /\
  (let o := Sample.cfg (Some "mpi") None true true ["A"] None in
   exists o',
     __check_exectype__ (Sample.bare {["A" := "4"]}) o = Ok o' /\
     ntasks o' = PyInt 1 /\ py_str (ntasks o') <> "4").
Proof.
  split; cbn zeta; eexists; (split; [vm_compute; reflexivity|]);
    (split; [reflexivity | vm_compute; discriminate]).
Qed.

(** C6, amended: for every Configuration Object with [multi] set whose
    first bound [task_keys] entry, in [task_keys] order, holds the decimal
    text of a non-zero integer [z], task-type resolution returns, changes
    no field but [ntasks], and, when [serial] is not set, makes [ntasks]
    read as the decimal text of [z]; when [serial] is set as well,
    [ntasks] is [1]. *)
Theorem ntasks_first_bound (w : world) (o : exec_obj) (z : Z) :
  multi o = true ->
  z <> 0 ->
  head (bound_values w (task_keys o)) = Some (pretty z) ->
  exists o',
    __check_exectype__ w o = Ok o' /\
    o' = set_ntasks (ntasks o') o /\
    (serial o = false -> py_str (ntasks o') = pretty z) /\
    (serial o = true -> ntasks o' = PyInt 1).
Proof.
  intros Hm _ Hv. eexists.
  split; [apply (check_exectype_multi w o _ Hm Hv)|].
  cbn. repeat split; intros ->; reflexivity.
Qed.

Lemma ntasks_first_bound_witness :
  let o := Sample.cfg (Some "slurm") None true false
             ["PBS_NP"; "SLURM_NTASKS"; "NTASKS"] None in
  exists o',
    __check_exectype__
      (Sample.bare {["SLURM_NTASKS" := "16"; "NTASKS" := "2"]}) o = Ok o' /\
    py_str (ntasks o') = "16".
Proof.
  cbn zeta.
  destruct (ntasks_first_bound
              (Sample.bare {["SLURM_NTASKS" := "16"; "NTASKS" := "2"]})
              (Sample.cfg (Some "slurm") None true false
                 ["PBS_NP"; "SLURM_NTASKS"; "NTASKS"] None)
              16 eq_refl ltac:(discriminate) ltac:(vm_compute; reflexivity))
    as (o' & Hrun & _ & Htext & _).
  exists o'. split; [exact Hrun|]. exact (Htext eq_refl).
Defined.

(** ** Container resolution *)

Lemma app_path_not_found (w : world) (app : string) (st : sys) (p : proc) :
  spawn w (cwd st) ["command"; "-V"; app] = Some p ->
  written STDOUT (writes p) = "" ->
  app_path w app st
  = (Ok None, with_exited (exited st ++ [(["command"; "-V"; app], returncode p)]) st).
Proof.
  intros Hsp Hout. unfold app_path, bind, popen_communicate.
  rewrite Hsp, Hout. reflexivity.
Qed.

(** The image is there, the tool is not: [simgexec] is [None], the
    inspection command has [None] at its head, and [subprocess.run]
    refuses it with [TypeError], which the [except AttributeError] clause
    does not catch. *)
Lemma check_sifimg_tool_missing
    (w : world) (o : exec_obj) (st : sys) (p : proc) :
  fileexist w (img_path o) = true ->
  spawn w (cwd st) ["command"; "-V"; "singularity"] = Some p ->
  written STDOUT (writes p) = "" ->
  __check_sifimg__ w o st
  = (Raise TypeError,
     with_exited
       (exited st ++ [(["command"; "-V"; "singularity"], returncode p)]) st).
Proof.
  intros Hex Hsp Hout. unfold __check_sifimg__. rewrite Hex. cbn [negb].
  unfold bind at 1. unfold try_except at 1. unfold bind at 1.
  rewrite (app_path_not_found w "singularity" st p Hsp Hout).
  reflexivity.
Qed.

Example check_sifimg_inspect_ok :
  __check_sifimg__ (SifSample.with_singularity 0) SifSample.o Sample.sys0
  = (Ok (set_container true SifSample.o),
     with_exited
       [(["command"; "-V"; "singularity"], 0);
        (["/usr/bin/singularity"; "inspect"; "--quiet"; SifSample.img], 0)]
       Sample.sys0).
Proof. vm_compute. reflexivity. Qed.

Example check_sifimg_inspect_fails :
  let '(r, st) :=
    __check_sifimg__ (SifSample.with_singularity 255) SifSample.o Sample.sys0 in
  r = Ok (set_container false SifSample.o) /\
  exists msg, log st = [(INFO, msg)].
Proof. vm_compute. split; [reflexivity | eexists; reflexivity]. Qed.

(** C7 at its failing input: the image exists and [command -V singularity]
    prints nothing.  Container resolution raises [TypeError] and
    [container] is never assigned. *)
Lemma check_sifimg_raises_without_tool :
  fileexist (Sample.bare ∅) (img_path SifSample.o) = true /\
  app_path (Sample.bare ∅) "singularity" Sample.sys0
  = (Ok None,
     with_exited [(["command"; "-V"; "singularity"], 1)] Sample.sys0) /\
  __check_sifimg__ (Sample.bare ∅) SifSample.o Sample.sys0
  = (Raise TypeError,
     with_exited [(["command"; "-V"; "singularity"], 1)] Sample.sys0).
Proof. repeat split; vm_compute; reflexivity. Qed.

(** ** Process runner *)

Lemma contains_prefix (sub post : string) : PyStr.contains sub (sub +:+ post).
Proof. now exists "", post. Qed.

Ltac solve_contains :=
  repeat first
    [ apply contains_refl | apply contains_prefix | apply contains_mid
    | apply contains_app_r ].

Lemma app_one_not_self {A} (l : list A) (x : A) : l = (l ++ [x])%list -> False.
Proof.
  intros H. apply (f_equal (@List.length A)) in H.
  rewrite List.length_app in H. cbn in H. lia.
Qed.

Lemma app_one_inv {A} (l : list A) (x y : A) :
  (l ++ [x])%list = (l ++ [y])%list -> x = y.
Proof. intros H. apply app_inv_head in H. now inversion H. Qed.

Lemma deliver_other (h other : handle) (ws : list (stream * string))
    (f : gmap string string) :
  other <> h -> deliver h h ws f !! other = f !! other.
Proof.
  intros Hne. revert f. induction ws as [|[[] d] ws IH]; intros f; cbn;
    [reflexivity | rewrite IH | rewrite IH];
    unfold append_to; now rewrite lookup_insert_ne.
Qed.

Lemma deliver_same (h : handle) (ws : list (stream * string))
    (f : gmap string string) (c : string) :
  f !! h = Some c ->
  deliver h h ws f !! h = Some (c +:+ all_written ws).
Proof.
  revert f c. induction ws as [|[[] d] ws IH]; intros f c Hc; cbn.
  - now rewrite append_empty_r.
  - rewrite (IH _ (c +:+ d)).
    + now rewrite append_assoc.
    + unfold append_to. rewrite Hc. cbn. apply lookup_insert_eq.
  - rewrite (IH _ (c +:+ d)).
    + now rewrite append_assoc.
    + unfold append_to. rewrite Hc. cbn. apply lookup_insert_eq.
Qed.

Lemma get_cmd_inv (o o1 : exec_obj) :
  __get_cmd__ o = Ok o1 ->
  exec_path o1 = exec_path o /\ run_path o1 = run_path o /\
  stderr o1 = stderr o /\ stdout o1 = stdout o.
Proof.
  unfold __get_cmd__, __get_nprocs_flag__.
  destruct (scheduler o); [|discriminate].
  cbn. intros H. inversion H; subst; clear H. cbn. auto.
Qed.

Lemma get_cmd_raises (o : exec_obj) (e : exn) :
  __get_cmd__ o = Raise e -> e = AttributeError.
Proof.
  unfold __get_cmd__, __get_nprocs_flag__.
  destruct (scheduler o); cbn; congruence.
Qed.

#[local] Opaque PyStr.path_join.

Ltac run_cases :=
  unfold __redirect__, chdir, Popen_wait, open_w, logger, bind, ret, raise;
  cbn; repeat case_match; simplify_eq; cbn.

(** C3: for every Configuration Object, world and starting state, the
    runner raises [ExecutableInterfaceError] exactly when the child it
    spawned was waited for and exited with a non-zero code: the error
    implies such an exit, and its message contains the executable path,
    the exit code in decimal and the path of the [stderr] log; a non-zero
    exit implies the error; an exit with code zero implies a normal
    return. *)
Theorem run_raises_iff_nonzero (w : world) (o : exec_obj) (st : sys) :
  let r := fst (__run w o st) in
  let st' := snd (__run w o st) in
  (forall msg, r = Raise (ExecutableInterfaceError msg) ->
     exists argv code,
       exited st' = (exited st ++ [(argv, code)])%list /\ code <> 0 /\
       PyStr.contains (exec_path o) msg /\
       PyStr.contains (pretty code) msg /\
       PyStr.contains (stderr_path o) msg) /\
  (forall argv code,
     exited st' = (exited st ++ [(argv, code)])%list ->
     (code <> 0 -> exists msg, r = Raise (ExecutableInterfaceError msg)) /\
     (code = 0 -> exists o', r = Ok o')).
Proof.
  cbn zeta. unfold __run. unfold bind at 1, lift.
  destruct (__get_cmd__ o) as [o1|e] eqn:Hcmd.
  2:{ apply get_cmd_raises in Hcmd as ->.
      cbn. split; [intros msg H; discriminate|].
      intros argv code H. now apply app_one_not_self in H. }
  destruct (get_cmd_inv o o1 Hcmd) as (Hep & Hrp & Herr & _).
  unfold stderr_path. rewrite <- Hep, <- Hrp, <- Herr. clear Hcmd Hep Hrp Herr o.
  run_cases.
  all: try (split; [intros msg H; discriminate|]; intros argv code H;
            now apply app_one_not_self in H).
  all: match goal with
       | H : negb (bool_decide _) = _ |- _ =>
           cbn in H;
           first [ apply negb_true_iff, bool_decide_eq_false in H
                 | apply negb_false_iff, bool_decide_eq_true in H ]
       end.
  all: split;
    [ intros msg Hmsg; inversion Hmsg; subst; clear Hmsg
    | intros argv code Heq; apply app_one_inv in Heq; inversion Heq; subst;
      clear Heq; split; intros Hcode ].
  all: try solve [eexists; reflexivity].
  all: try solve [exfalso; congruence].
  all: eexists _, _; split; [reflexivity|]; split; [congruence|].
  all: unfold run_failed_msg; cbn;
    repeat match goal with
           | H : stderr _ = Some _ |- _ => rewrite ?H; clear H
           end.
  all: repeat split; solve_contains.
Qed.

Lemma run_raises_iff_nonzero_witness :
  exists msg,
    fst (__run RunSample.exits_7 RunSample.o Sample.sys0)
      = Raise (ExecutableInterfaceError msg) /\
    PyStr.contains "7" msg /\
    PyStr.contains "/scratch/run/stderr.log" msg.
Proof.
  destruct (run_raises_iff_nonzero RunSample.exits_7 RunSample.o Sample.sys0)
    as [Hmsg Hexit].
  destruct (Hexit ["/opt/bin/model.x"] 7 ltac:(vm_compute; reflexivity))
    as [Hraise _].
  destruct (Hraise ltac:(discriminate)) as [msg Hr].
  exists msg. split; [exact Hr|].
  destruct (Hmsg msg Hr) as (argv & code & Hex & _ & _ & Hcode & Hpath).
  assert (code = 7) as ->.
  { vm_compute in Hex. now inversion Hex. }
  split; [exact Hcode | exact Hpath].
Defined.

Ltac use_field_eqs :=
  repeat match goal with
         | H : ?x = Some _ |- context [?x] => rewrite H
         | H : ?x = None |- context [?x] => rewrite H
         end;
  cbn [fmt].

(** Whenever the runner gets as far as waiting for a child and the two
    log paths differ, the file on the [stdout] path is left empty: it is
    opened, hence truncated, and never handed to the child. *)
Lemma run_stdout_file_stays_empty (w : world) (o : exec_obj) (st : sys) :
  stdout_path o <> stderr_path o ->
  exited (snd (__run w o st)) <> exited st ->
  files (snd (__run w o st)) !! stdout_path o = Some "".
Proof.
  unfold __run. unfold bind at 1 3, lift.
  destruct (__get_cmd__ o) as [o1|e] eqn:Hcmd; [|intros _ H; now destruct H].
  destruct (get_cmd_inv o o1 Hcmd) as (_ & Hrp & Herr & Hout).
  unfold stderr_path, stdout_path. rewrite <- Hrp, <- Herr, <- Hout.
  clear Hcmd Hrp Herr Hout o.
  run_cases; intros Hne Hex; try (now destruct Hex).
  all: cbn in *; simplify_eq; use_field_eqs.
  all: rewrite deliver_other by congruence.
  all: apply lookup_insert_eq.
Qed.

(** Everything the child wrote, on either stream, is on the [stderr]
    path. *)
Lemma run_all_output_on_stderr_file
    (w : world) (o o1 : exec_obj) (st : sys) (p : proc) :
  __get_cmd__ o = Ok o1 ->
  writable w (stderr_path o) = true ->
  writable w (stdout_path o) = true ->
  isdir w (run_path o) = true ->
  spawn w (run_path o) (cmd o1) = Some p ->
  stdout_path o <> stderr_path o ->
  files (snd (__run w o st)) !! stderr_path o = Some (all_written (writes p)).
Proof.
  intros Hcmd. unfold __run. unfold bind at 1 3, lift. rewrite Hcmd.
  destruct (get_cmd_inv o o1 Hcmd) as (_ & Hrp & Herr & Hout).
  unfold stderr_path, stdout_path. rewrite <- Hrp, <- Herr, <- Hout.
  clear Hcmd Hrp Herr Hout o.
  run_cases; intros Hw1 Hw2 Hd Hsp Hne; cbn in *; simplify_eq.
  all: repeat match goal with
         | H : ?x = Some _, H' : context [?x] |- _ => rewrite H in H'
         | H : ?x = None, H' : context [?x] |- _ => rewrite H in H'
         end; cbn [fmt] in *; try congruence.
  all: use_field_eqs; simplify_eq.
  all: rewrite (deliver_same _ _ _ ""); [reflexivity|].
  all: rewrite lookup_insert_ne by congruence; apply lookup_insert_eq.
Qed.

(** C1 at its failing input: a fresh run directory, redirect paths left
    to their defaults, an executable that writes [ok] to its standard
    output and exits 0.  The run returns normally, [stdout.log] under
    [run_path] exists and is empty, and [ok] is in [stderr.log]. *)
Lemma run_ok_lands_in_stderr_log :
  let st := snd (__run RunSample.says_ok RunSample.o Sample.sys0) in
  (exists o', fst (__run RunSample.says_ok RunSample.o Sample.sys0) = Ok o' /\
              cmd o' = ["/opt/bin/model.x"] /\
              stdout o' = Some "/scratch/run/stdout.log" /\
              stderr o' = Some "/scratch/run/stderr.log" /\
              rc o' = Some 0) /\
  exited st = [(["/opt/bin/model.x"], 0)] /\
  files st !! "/scratch/run/stdout.log" = Some "" /\
  ~ PyStr.contains "ok" "" /\
  files st !! "/scratch/run/stderr.log" = Some "ok".
Proof.
  cbn zeta. split; [eexists; vm_compute; repeat split; reflexivity|].
  split; [vm_compute; reflexivity|].
  split; [vm_compute; reflexivity|].
  split; [rewrite <- containsb_spec; vm_compute; discriminate|].
  vm_compute; reflexivity.
Qed.

(** ** Decorator *)

Lemma wrapper_body_pipeline {args} (w : world) (func : callable args)
    (a : args) (st : sys) :
  wrapper_body w func a st
  = (discard (fst (pipeline w func a st)), snd (pipeline w func a st)).
Proof.
  unfold wrapper_body, pipeline, stages, drive.
  assert (Hb : (if iscoroutinefunction func
                then await (call_async func a) else call func a)
               = body_of func a) by now destruct func.
  rewrite Hb. clear Hb.
  unfold bind, ret.
  destruct (body_of func a st) as [[o0|e] s0]; [|reflexivity].
  destruct (__schema w o0 s0) as [[o1|e] s1]; [|reflexivity].
  destruct (__setup w o1 s1) as [[o2|e] s2]; [|reflexivity].
  destruct (__launcher w o2 s2) as [[o3|e] s3]; [|reflexivity].
  destruct (__validate w o3 s3) as [[o4|e] s4]; [|reflexivity].
  destruct (__run w o4 s4) as [[o5|e] s5]; reflexivity.
Qed.

(** C10: for every builder, [def] or [async def], calling the function
    [app_exec] returns gives a coroutine object and changes nothing: no
    log entry, no file, no process.  Awaiting that coroutine, from any
    state, has exactly the effects of the six stages run in order, and
    yields [None] when they all return and their exception otherwise;
    it never yields the Configuration Object. *)
Theorem app_exec_coroutine {args} (w : world) (func : callable args)
    (a : args) (st : sys) :
  exists c : coroutine retval,
    app_exec w func a st = (Ok c, st) /\
    forall st0 : sys,
      snd (await c st0) = snd (pipeline w func a st0) /\
      fst (await c st0) = discard (fst (pipeline w func a st0)) /\
      (forall o, fst (await c st0) <> Ok (RObj o)) /\
      (forall o, fst (pipeline w func a st0) = Ok o -> fst (await c st0) = Ok RNone).
Proof.
  exists (Coroutine (wrapper_body w func a)). split; [reflexivity|].
  intros st0. cbn [await]. rewrite wrapper_body_pipeline. cbn [fst snd].
  repeat split.
  - intros o. now destruct (fst (pipeline w func a st0)).
  - intros o ->. reflexivity.
Qed.

Example await_sync_builder :
  fst (wrapper_body PipelineSample.w (Def PipelineSample.builder) tt Sample.sys0)
  = Ok RNone /\
  exited (snd (wrapper_body PipelineSample.w (Def PipelineSample.builder) tt
                 Sample.sys0))
  = [(["command"; "-V"; "srun"], 0); (["/opt/bin/model.x"], 0)].
Proof. split; vm_compute; reflexivity. Qed.

Example await_async_builder :
  fst (wrapper_body PipelineSample.w (AsyncDef PipelineSample.builder) tt
         Sample.sys0)
  = Ok RNone.
Proof. vm_compute; reflexivity. Qed.

(** * Further properties of the launch pipeline *)

(** ** Task-type resolution: what it returns and what it raises *)

(** X1: with [multi] unset, task-type resolution returns with [serial]
    set and [ntasks] the integer [1], every other field as it was,
    whatever the environment and [task_keys] hold. *)
Theorem serial_ignores_environment (w : world) (o : exec_obj) :
  multi o = false ->
  exists o',
    __check_exectype__ w o = Ok o' /\
    serial o' = true /\ ntasks o' = PyInt 1 /\
    o' = set_ntasks (PyInt 1) (set_serial true o).
Proof.
  intros Hm. eexists. split; [apply (check_exectype_serial_default w o Hm)|].
  repeat split.
Qed.

Lemma serial_ignores_environment_witness :
  let o := Sample.cfg (Some "slurm") None false false ["SLURM_NTASKS"] None in
  exists o',
    __check_exectype__ (Sample.bare {["SLURM_NTASKS" := "16"]}) o = Ok o' /\
    serial o' = true /\ ntasks o' = PyInt 1.
Proof.
  cbn zeta.
  destruct (serial_ignores_environment
              (Sample.bare {["SLURM_NTASKS" := "16"]})
              (Sample.cfg (Some "slurm") None false false ["SLURM_NTASKS"] None)
              eq_refl) as (o' & Hrun & Hs & Hn & _).
  exists o'. repeat split; assumption.
Defined.

(** X2: task-type resolution raises exactly when [multi] is set and no
    entry of [task_keys] is bound, and what it raises then is
    [UnboundLocalError]; in particular the error for a zero task count is
    never raised, whatever the environment holds. *)
Theorem check_exectype_raises_iff (w : world) (o : exec_obj) :
  (forall e, __check_exectype__ w o = Raise e ->
     e = UnboundLocalError /\ multi o = true /\
     bound_values w (task_keys o) = []) /\
  (multi o = true -> bound_values w (task_keys o) = [] ->
   __check_exectype__ w o = Raise UnboundLocalError) /\
  (forall msg, __check_exectype__ w o <> Raise (ExecutableInterfaceError msg)).
Proof.
  assert (Hall : forall e, __check_exectype__ w o = Raise e ->
            e = UnboundLocalError /\ multi o = true /\
            bound_values w (task_keys o) = []).
  { intros e. destruct (multi o) eqn:Hm.
    - destruct (bound_values w (task_keys o)) as [|v vs] eqn:Hv.
      + rewrite (check_exectype_unbound w o Hm Hv). intros [= <-]. auto.
      + rewrite (check_exectype_multi w o v Hm) by now rewrite Hv.
        discriminate.
    - rewrite (check_exectype_serial_default w o Hm). discriminate. }
  split; [exact Hall|]. split.
  - apply check_exectype_unbound.
  - intros msg H. apply Hall in H as [H _]. discriminate.
Qed.

Lemma check_exectype_raises_iff_witness :
  let o := Sample.cfg (Some "mpi") None true true ["NTASKS"] None in
  __check_exectype__ (Sample.bare {["OTHER" := "0"]}) o = Raise UnboundLocalError.
Proof.
  cbn zeta.
  apply (check_exectype_raises_iff (Sample.bare {["OTHER" := "0"]})
           (Sample.cfg (Some "mpi") None true true ["NTASKS"] None));
    vm_compute; reflexivity.
Defined.

(** ** Launcher resolution and what the runner makes of it *)

Lemma set_launcher_same (o : exec_obj) : set_launcher (launcher o) o = o.
Proof. now destruct o. Qed.

(** X3: a Configuration Object with neither launcher nor scheduler
    passes launcher resolution unchanged, with one warning logged and no
    process spawned, and the runner then raises [AttributeError] on it
    before it logs, opens or spawns anything. *)
Theorem no_scheduler_passes_launcher_fails_run
    (w : world) (o : exec_obj) (st : sys) :
  launcher o = None -> scheduler o = None ->
  exists msg,
    __launcher w o st = (Ok o, with_log (log st ++ [(WARN, msg)])%list st) /\
    __run w o (with_log (log st ++ [(WARN, msg)])%list st)
    = (Raise AttributeError, with_log (log st ++ [(WARN, msg)])%list st).
Proof.
  intros Hl Hs. eexists. split.
  - unfold __launcher. rewrite Hl, Hs. unfold bind, logger, ret.
    rewrite <- Hl at 1. now rewrite set_launcher_same.
  - unfold __run, bind, lift, __get_cmd__.
    now rewrite (get_nprocs_flag_none o Hs).
Qed.

Lemma no_scheduler_passes_launcher_fails_run_witness :
  let o := Sample.cfg None None false true [] None in
  exists msg,
    __launcher (Sample.bare ∅) o Sample.sys0
    = (Ok o, with_log [(WARN, msg)] Sample.sys0) /\
    __run (Sample.bare ∅) o (with_log [(WARN, msg)] Sample.sys0)
    = (Raise AttributeError, with_log [(WARN, msg)] Sample.sys0).
Proof.
  cbn zeta.
  exact (no_scheduler_passes_launcher_fails_run (Sample.bare ∅)
           (Sample.cfg None None false true [] None) Sample.sys0
           eq_refl eq_refl).
Defined.

(** X4: when the scheduler is MPI, the run is a multi-task one and
    [command -V mpirun] prints nothing, launcher resolution returns with
    [launcher] still null, and command assembly then puts the text
    [None] where the launcher belongs. *)
Theorem missing_mpirun_gives_None_command
    (w : world) (o : exec_obj) (s : string) (st : sys) (p : proc) :
  launcher o = None -> scheduler o = Some s -> PyStr.lower s = "mpi" ->
  multi o = true ->
  spawn w (cwd st) ["command"; "-V"; "mpirun"] = Some p ->
  written STDOUT (writes p) = "" ->
  exists o1 st1 o2,
    __launcher w o st = (Ok o1, st1) /\ launcher o1 = None /\
    __get_cmd__ o1 = Ok o2 /\
    cmd o2 = ["None"; "-np"; py_str (ntasks o); exec_path o].
Proof.
  intros Hl Hs Hlow Hm Hsp Hout.
  exists o, (with_exited
               (exited st ++ [(["command"; "-V"; "mpirun"], returncode p)])%list st).
  eexists. split; [|split; [exact Hl|]].
  - unfold __launcher. rewrite Hl, Hs, Hlow.
    replace (String.eqb "mpi" "mpi") with true by reflexivity. cbv iota.
    unfold bind at 1. rewrite (app_path_not_found w "mpirun" st p Hsp Hout).
    unfold ret. rewrite <- Hl at 1. now rewrite set_launcher_same.
  - unfold __get_cmd__. rewrite (get_nprocs_flag_some o s Hs).
    unfold flag_of. rewrite Hlow, Hm. cbn. rewrite Hl. split; reflexivity.
Qed.

Lemma missing_mpirun_gives_None_command_witness :
  let o := set_ntasks (PyStr "4") (Sample.cfg (Some "MPI") None true false [] None) in
  exists o1 st1 o2,
    __launcher (Sample.bare ∅) o Sample.sys0 = (Ok o1, st1) /\ launcher o1 = None /\
    __get_cmd__ o1 = Ok o2 /\
    cmd o2 = ["None"; "-np"; "4"; "/opt/bin/model.x"].
Proof.
  cbn zeta.
  exact (missing_mpirun_gives_None_command (Sample.bare ∅)
           (set_ntasks (PyStr "4") (Sample.cfg (Some "MPI") None true false [] None))
           "MPI" Sample.sys0 _ eq_refl eq_refl eq_refl eq_refl eq_refl eq_refl).
Defined.

(** ** Container resolution: the image check and the inspection *)

(** X5: when the image path does not exist, container resolution raises
    [ExecutableInterfaceError] naming the path, and does so before it
    looks for the inspection tool: nothing is spawned or logged. *)
Theorem check_sifimg_missing_image (w : world) (o : exec_obj) (st : sys) :
  fileexist w (img_path o) = false ->
  exists msg,
    __check_sifimg__ w o st = (Raise (ExecutableInterfaceError msg), st) /\
    PyStr.contains (fmt (img_path o)) msg.
Proof.
  intros Hex. unfold __check_sifimg__. rewrite Hex. cbn [negb].
  eexists. split; [reflexivity|]. solve_contains.
Qed.

Lemma check_sifimg_missing_image_witness :
  exists msg,
    __check_sifimg__
      {| environ := ∅; spawn := fun _ _ => None; writable := fun _ => true;
         isdir := fun _ => true; fileexist := fun _ => false;
         apply_schema := fun _ _ o => Ok o |}
      SifSample.o Sample.sys0
    = (Raise (ExecutableInterfaceError msg), Sample.sys0) /\
    PyStr.contains "/images/model.sif" msg.
Proof.
  apply (check_sifimg_missing_image
           {| environ := ∅; spawn := fun _ _ => None; writable := fun _ => true;
              isdir := fun _ => true; fileexist := fun _ => false;
              apply_schema := fun _ _ o => Ok o |}
           SifSample.o Sample.sys0).
  reflexivity.
Defined.

(** X6: when the image exists, the probe for [singularity] prints ASCII
    text and [app_path] returns a tool path from it, what container
    resolution does turns on whether [tool inspect --quiet image] can be
    spawned.  If it can, resolution does not raise: it
    runs the command once and sets [container] to whether that exited
    with zero, changing no other field; a non-zero exit adds one
    informational log entry that names the image and the executable, a
    zero exit logs nothing.  If it cannot, the [OSError] of the spawn
    escapes both handlers and [container] is not assigned. *)
Theorem check_sifimg_inspection
    (w : world) (o : exec_obj) (st st1 : sys) (tool img : string) :
  fileexist w (img_path o) = true ->
  img_path o = Some img ->
  probe_is_ascii w st "singularity" ->
  app_path w "singularity" st = (Ok (Some tool), st1) ->
  (forall p, spawn w (cwd st1) [tool; "inspect"; "--quiet"; img] = Some p ->
     exists st2,
       __check_sifimg__ w o st
       = (Ok (set_container (returncode p =? 0) o), st2) /\
       exited st2
       = (exited st1 ++ [([tool; "inspect"; "--quiet"; img], returncode p)])%list /\
       (returncode p = 0 -> log st2 = log st1) /\
       (returncode p <> 0 ->
        exists msg, log st2 = (log st1 ++ [(INFO, msg)])%list /\
                    PyStr.contains img msg /\ PyStr.contains (exec_path o) msg)) /\
  (spawn w (cwd st1) [tool; "inspect"; "--quiet"; img] = None ->
   __check_sifimg__ w o st = (Raise OSError, st1)).
Proof.
  intros Hex Himg _ Happ.
  assert (Hgo : __check_sifimg__ w o st
    = bind
        (try_except
           (try_except
              (bind (subprocess_run_check w
                       [Some tool; Some "inspect"; Some "--quiet"; Some img])
                    (fun _ => ret true))
              (fun e =>
                 match e with
                 | CalledProcessError argv status => Some (
                     bind (logger INFO
                       ("Singularity application check yielded the following message:"
                        +:+ nl +:+ nl +:+ str_CalledProcessError argv status
                        +:+ nl +:+ nl +:+
                        "The Singularity container " +:+ img +:+ " will "
                        +:+ "not be used for the requested executable application "
                        +:+ exec_path o +:+ ".")) (fun _ => ret false))
                 | _ => None
                 end))
           (fun e => match e with AttributeError => Some (ret false) | _ => None end))
        (fun check => ret (set_container check o)) st1).
  { unfold __check_sifimg__. rewrite Hex. cbn [negb].
    unfold bind at 1. unfold try_except at 1. unfold bind at 1. rewrite Happ.
    rewrite Himg. reflexivity. }
  rewrite Hgo. clear Hgo.
  unfold try_except, subprocess_run_check, bind, lift, popen_communicate.
  cbn [fsencode_all obind]. split.
  - intros p Hsp. rewrite Hsp.
    destruct (Z.eqb_spec (returncode p) 0) as [Hz|Hnz].
    + eexists. split; [reflexivity|]. cbn.
      split; [reflexivity|]. split; [reflexivity|].
      intros Hne. now destruct Hne.
    + eexists. split; [reflexivity|]. cbn.
      split; [reflexivity|]. split; [intros Hz; now destruct Hnz|].
      intros _. eexists. split; [reflexivity|]. split; solve_contains.
  - intros Hsp. rewrite Hsp. reflexivity.
Qed.

Lemma check_sifimg_inspection_witness :
  (exists st2,
     __check_sifimg__ (SifSample.with_singularity 255) SifSample.o Sample.sys0
     = (Ok (set_container false SifSample.o), st2) /\
     exists msg, log st2 = [(INFO, msg)] /\
                 PyStr.contains "/images/model.sif" msg) /\
  fst (__check_sifimg__ SifSample.not_executable SifSample.o Sample.sys0)
  = Raise OSError.
Proof.
  split.
  - destruct (proj1 (check_sifimg_inspection (SifSample.with_singularity 255)
                       SifSample.o Sample.sys0
                       (with_exited [(["command"; "-V"; "singularity"], 0)] Sample.sys0)
                       "/usr/bin/singularity" SifSample.img
                       eq_refl eq_refl
                       ltac:(intros q Hq; injection Hq as <-; vm_compute; reflexivity)
                       ltac:(vm_compute; reflexivity))
                {| writes := []; returncode := 255 |} eq_refl)
      as (st2 & Hrun & _ & _ & Hlog).
    exists st2. split; [exact Hrun|].
    destruct (Hlog ltac:(discriminate)) as (msg & Hl & Himg & _).
    exists msg. split; [exact Hl | exact Himg].
  - rewrite (proj2 (check_sifimg_inspection SifSample.not_executable
                      SifSample.o Sample.sys0
                      (with_exited [(["command"; "-V"; "singularity"], 0)] Sample.sys0)
                      "/opt/singularity" SifSample.img
                      eq_refl eq_refl
                      ltac:(intros q Hq; injection Hq as <-; vm_compute; reflexivity)
                      ltac:(vm_compute; reflexivity)) eq_refl).
    reflexivity.
Defined.

(** ** Process runner: files, return value, failures to open *)



(** X8: whenever the runner returns normally, a child was waited for and
    exited with zero, and the object returned is the one command assembly
    produced with [rc] set to [0] and [stderr] and [stdout] set to the two
    log paths, the defaults under [run_path] where they were unset. *)
Theorem run_returns_means_zero (w : world) (o o' : exec_obj) (st : sys) :
  fst (__run w o st) = Ok o' ->
  exists o1,
    __get_cmd__ o = Ok o1 /\
    o' = set_rc (Some 0)
           (set_stdout (Some (stdout_path o))
              (set_stderr (Some (stderr_path o)) o1)) /\
    exited (snd (__run w o st)) = (exited st ++ [(cmd o1, 0)])%list.
Proof.
  unfold __run. unfold bind at 1 3, lift.
  destruct (__get_cmd__ o) as [o1|e] eqn:Hcmd; [|discriminate].
  destruct (get_cmd_inv o o1 Hcmd) as (_ & Hrp & Herr & Hout).
  unfold stderr_path, stdout_path. rewrite <- Hrp, <- Herr, <- Hout.
  intros Hok. exists o1. split; [reflexivity|]. revert Hok.
  clear Hcmd Hrp Herr Hout o.
  run_cases; intros Hok; try discriminate; inversion Hok; subst; clear Hok.
  all: cbn in *; simplify_eq.
  all: match goal with
       | H : negb (bool_decide _) = false |- _ =>
           apply negb_false_iff, bool_decide_eq_true in H; inversion H as [Hz]
       end.
  all: rewrite ?Hz; split; [|reflexivity].
  all: match goal with x : exec_obj |- _ => destruct x end;
    cbn in *; simplify_eq; reflexivity.
Qed.

Lemma run_returns_means_zero_witness :
  exists o',
    fst (__run RunSample.says_ok RunSample.o Sample.sys0) = Ok o' /\
    rc o' = Some 0 /\
    stderr o' = Some "/scratch/run/stderr.log" /\
    stdout o' = Some "/scratch/run/stdout.log".
Proof.
  eexists. split; [vm_compute; reflexivity|].
  destruct (run_returns_means_zero RunSample.says_ok RunSample.o _ Sample.sys0
              ltac:(vm_compute; reflexivity)) as (o1 & _ & Ho' & _).
  rewrite Ho'. repeat split.
Defined.



(** ** Command assembly composes with itself *)

(** X11: command assembly is idempotent: run again on the object it
    returned, it returns that object unchanged. *)
Theorem get_cmd_idempotent (o o' : exec_obj) :
  __get_cmd__ o = Ok o' -> __get_cmd__ o' = Ok o'.
Proof.
  unfold __get_cmd__, __get_nprocs_flag__.
  destruct (scheduler o) as [s|] eqn:Hs; [|discriminate].
  cbn [obind]. intros H. inversion H; subst; clear H.
  cbn. rewrite Hs. cbn. reflexivity.
Qed.

Lemma get_cmd_idempotent_witness :
  let o := set_ntasks (PyInt 8)
             (Sample.cfg (Some "mpi") (Some "/usr/bin/mpirun") true false [] None) in
  exists o', __get_cmd__ o = Ok o' /\ __get_cmd__ o' = Ok o' /\
             cmd o' = ["/usr/bin/mpirun"; "-np"; "8"; "/opt/bin/model.x"].
Proof.
  cbn zeta. eexists. split; [reflexivity|]. split; [|reflexivity].
  apply (get_cmd_idempotent
           (set_ntasks (PyInt 8)
              (Sample.cfg (Some "mpi") (Some "/usr/bin/mpirun") true false [] None))).
  reflexivity.
Defined.

(** ** Schema resolution *)

#[local] Transparent PyStr.path_join.

Lemma endswith_slash_cons (a b : ascii) (s : string) :
  PyStr.endswith_slash (String a (String b s)) = PyStr.endswith_slash (String b s).
Proof.
  unfold PyStr.endswith_slash. cbn [list_ascii_of_string].
  change (rev (a :: b :: list_ascii_of_string s))
    with (rev (b :: list_ascii_of_string s) ++ [a])%list.
  destruct (rev (b :: list_ascii_of_string s)) as [|c t] eqn:E; [|reflexivity].
  apply (f_equal (@List.length ascii)) in E.
  rewrite length_rev in E. discriminate.
Qed.

Lemma endswith_slash_app (x : string) (c : ascii) (y : string) :
  PyStr.endswith_slash (x +:+ String c y) = PyStr.endswith_slash (String c y).
Proof.
  induction x as [|a x IH]; [reflexivity|].
  rewrite append_cons. destruct x as [|b x].
  - cbn [String.append]. apply endswith_slash_cons.
  - rewrite append_cons in *. now rewrite endswith_slash_cons.
Qed.

Lemma eqb_app_nonempty (x : string) (c : ascii) (y : string) :
  String.eqb (x +:+ String c y) "" = false.
Proof. now destruct x. Qed.

Lemma path_join_relative (a b : string) :
  PyStr.startswith "/" b = false ->
  PyStr.path_join a b = a +:+ sep_after a +:+ b.
Proof.
  intros Hb. unfold PyStr.path_join, sep_after. rewrite Hb.
  now destruct (String.eqb a "" || PyStr.endswith_slash a)%bool.
Qed.

Lemma sep_after_app (x : string) (c : ascii) (y : string) :
  PyStr.endswith_slash (String c y) = false ->
  sep_after (x +:+ String c y) = "/".
Proof.
  intros H. unfold sep_after.
  now rewrite eqb_app_nonempty, endswith_slash_app, H.
Qed.

Lemma schema_join_shape (root : string) :
  schema_join (Some root)
  = Ok (root +:+ sep_after root +:+ "execute/schema/executable.schema.yaml").
Proof.
  unfold schema_join.
  rewrite (path_join_relative root "execute") by reflexivity.
  rewrite path_join_relative by reflexivity.
  rewrite path_join_relative by reflexivity.
  rewrite <- (append_assoc root (sep_after root) "execute").
  rewrite (sep_after_app (root +:+ sep_after root) "e" "xecute") by reflexivity.
  rewrite <- (append_assoc _ "/" "schema").
  rewrite (sep_after_app _ "s" "chema") by reflexivity.
  f_equal. now rewrite !append_assoc.
Qed.

Lemma schema_without_root (w : world) (o : exec_obj) (st : sys) :
  environ w !! "PYUTILS_ROOT" = None ->
  exists msg,
    __schema w o st = (Raise (ExecutableInterfaceError msg), st) /\
    PyStr.contains "PYUTILS_ROOT" msg.
Proof.
  intros Henv. unfold __schema, bind, try_except, lift.
  rewrite enviro_get_lookup, Henv. cbn [schema_join].
  eexists. split; [reflexivity|].
  rewrite <- containsb_spec. vm_compute. reflexivity.
Qed.

(** X12: without [PYUTILS_ROOT] in the environment, schema resolution
    raises [ExecutableInterfaceError], the [TypeError] of the path join
    never escaping, with a message that names the variable; nothing is
    logged and the object is not changed. *)
Theorem schema_root_unset (w : world) (o : exec_obj) (st : sys) :
  environ w !! "PYUTILS_ROOT" = None ->
  exists msg,
    __schema w o st = (Raise (ExecutableInterfaceError msg), st) /\
    PyStr.contains "PYUTILS_ROOT" msg.
Proof. apply schema_without_root. Qed.

Lemma schema_root_unset_witness :
  exists msg,
    __schema (Sample.bare ∅) RunSample.o Sample.sys0
    = (Raise (ExecutableInterfaceError msg), Sample.sys0) /\
    PyStr.contains "PYUTILS_ROOT" msg.
Proof.
  apply (schema_root_unset (Sample.bare ∅) RunSample.o Sample.sys0).
  reflexivity.
Defined.

(** X13: with [PYUTILS_ROOT] bound to [root], the schema path is [root]
    followed by [execute/schema/executable.schema.yaml], with a slash in
    between unless [root] is empty or already ends in one.  If that file
    exists, [schema_path] is set to it, no other field changes and one
    informational entry is logged; if it does not, resolution raises
    [ExecutableInterfaceError] naming the path and logs nothing. *)
Theorem schema_root_set (w : world) (o : exec_obj) (st : sys) (root : string) :
  environ w !! "PYUTILS_ROOT" = Some root ->
  let path := root +:+ sep_after root +:+ "execute/schema/executable.schema.yaml" in
  (fileexist w (Some path) = true ->
   exists msg,
     __schema w o st
     = (Ok (set_schema_path (Some path) o),
        with_log (log st ++ [(INFO, msg)])%list st)) /\
  (fileexist w (Some path) = false ->
   exists msg,
     __schema w o st = (Raise (ExecutableInterfaceError msg), st) /\
     PyStr.contains path msg).
Proof.
  intros Henv path. unfold __schema, bind, try_except, lift.
  rewrite enviro_get_lookup, Henv, schema_join_shape. fold path.
  split; intros Hex; rewrite Hex; cbn [negb]; eexists.
  - reflexivity.
  - split; [reflexivity|]. solve_contains.
Qed.

Lemma schema_root_set_witness :
  exists msg,
    __schema PipelineSample.w RunSample.o Sample.sys0
    = (Ok (set_schema_path
             (Some "/opt/pyutils/execute/schema/executable.schema.yaml")
             RunSample.o),
       with_log [(INFO, msg)] Sample.sys0).
Proof.
  exact (proj1 (schema_root_set PipelineSample.w RunSample.o Sample.sys0
                  "/opt/pyutils" eq_refl) eq_refl).
Defined.

(** ** Decorator: where the pipeline stops *)

(** X14: awaiting the wrapped function runs the builder first.  If the
    builder raises, its exception is what awaiting raises and the state
    is as the builder left it; if it returns and [PYUTILS_ROOT] is not
    in the environment, awaiting raises [ExecutableInterfaceError] and
    the state is again as the builder left it: no later stage has
    logged, opened or spawned anything. *)
Theorem wrapper_stops_early {args} (w : world) (func : callable args)
    (a : args) (st s0 : sys) :
  (forall e, body_of func a st = (Raise e, s0) ->
     wrapper_body w func a st = (Raise e, s0)) /\
  (forall o0, body_of func a st = (Ok o0, s0) ->
     environ w !! "PYUTILS_ROOT" = None ->
     exists msg,
       wrapper_body w func a st = (Raise (ExecutableInterfaceError msg), s0) /\
       PyStr.contains "PYUTILS_ROOT" msg).
Proof.
  split.
  - intros e Hb. rewrite wrapper_body_pipeline. unfold pipeline, bind.
    now rewrite Hb.
  - intros o0 Hb Henv.
    destruct (schema_without_root w o0 s0 Henv) as (msg & Hs & Hc).
    exists msg. split; [|exact Hc].
    rewrite wrapper_body_pipeline. unfold pipeline, stages, drive, bind.
    now rewrite Hb, Hs.
Qed.

Lemma wrapper_stops_early_witness :
  exists msg,
    wrapper_body (Sample.bare ∅) (AsyncDef PipelineSample.builder) tt Sample.sys0
    = (Raise (ExecutableInterfaceError msg), Sample.sys0) /\
    PyStr.contains "PYUTILS_ROOT" msg.
Proof.
  exact (proj2 (wrapper_stops_early (Sample.bare ∅)
                  (AsyncDef PipelineSample.builder) tt Sample.sys0 Sample.sys0)
           _ eq_refl eq_refl).
Defined.

(** ** [app_path]: what it makes of the output of [command -V] *)

Section SplitFacts.

Lemma list_of_append (a b : string) :
  list_ascii_of_string (a +:+ b)
  = (list_ascii_of_string a ++ list_ascii_of_string b)%list.
Proof.
  induction a as [|c a IH]; [reflexivity|].
  rewrite append_cons. cbn [list_ascii_of_string]. now rewrite IH.
Qed.

Lemma bytes_space_is_str_space (c : ascii) :
  PyStr.bytes_isspace c = true -> PyStr.str_isspace c = true.
Proof.
  unfold PyStr.bytes_isspace, PyStr.str_isspace.
  destruct (N_of_ascii c) as [|n]; [discriminate|]. cbv zeta.
  rewrite !orb_true_iff, !andb_true_iff, !N.leb_le, N.eqb_eq. lia.
Qed.

(** Trailing blanks change nothing for [split]. *)
Lemma split_go_blank_tail (ws cur : list ascii) :
  Forall (fun c => PyStr.str_isspace c = true) ws ->
  PyStr.split_go ws cur = PyStr.split_go [] cur.
Proof.
  intros H. revert cur. induction H as [|c ws Hc _ IH]; intros cur; [reflexivity|].
  cbn [PyStr.split_go]. rewrite Hc. destruct cur as [|x cur].
  - now rewrite IH.
  - now rewrite IH.
Qed.

Lemma split_go_app_blank (l ws cur : list ascii) :
  Forall (fun c => PyStr.str_isspace c = true) ws ->
  PyStr.split_go (l ++ ws) cur = PyStr.split_go l cur.
Proof.
  intros H. revert cur. induction l as [|c l IH]; intros cur.
  - cbn [app]. now apply split_go_blank_tail.
  - cbn [app PyStr.split_go]. destruct (PyStr.str_isspace c).
    + destruct cur; now rewrite IH.
    + apply IH.
Qed.

Lemma lstrip_list_decomp (m : list ascii) :
  exists ws, m = (ws ++ PyStr.lstrip_list m)%list /\
             Forall (fun c => PyStr.str_isspace c = true) ws.
Proof.
  induction m as [|c m (ws & Hm & Hws)].
  - now exists [].
  - cbn [PyStr.lstrip_list]. destruct (PyStr.bytes_isspace c) eqn:Hc.
    + exists (c :: ws). split; [cbn; now f_equal|].
      constructor; [now apply bytes_space_is_str_space | exact Hws].
    + now exists [].
Qed.

(** [out.rstrip()] before [split()] is redundant. *)
Lemma split_rstrip (s : string) : PyStr.split (PyStr.rstrip s) = PyStr.split s.
Proof.
  unfold PyStr.split, PyStr.rstrip.
  rewrite list_ascii_of_string_of_list_ascii.
  destruct (lstrip_list_decomp (rev (list_ascii_of_string s))) as (ws & Hm & Hws).
  rewrite <- (rev_involutive (list_ascii_of_string s)) at 2.
  rewrite Hm at 2. rewrite rev_app_distr.
  symmetry. apply split_go_app_blank. now apply List.Forall_rev.
Qed.

Lemma split_go_word (wd rest cur : list ascii) :
  Forall (fun c => PyStr.str_isspace c = false) wd ->
  PyStr.split_go (wd ++ rest) cur = PyStr.split_go rest (rev wd ++ cur)%list.
Proof.
  intros H. revert cur. induction H as [|c wd Hc _ IH]; intros cur; [reflexivity|].
  cbn [app PyStr.split_go]. rewrite Hc, IH. cbn [rev].
  now rewrite <- app_assoc.
Qed.

(** A word followed by a blank character is the next item of the split. *)
Lemma split_go_word_then_blank (wd : string) (c : ascii) (rest : list ascii) :
  is_word wd -> PyStr.str_isspace c = true ->
  PyStr.split_go (list_ascii_of_string wd ++ c :: rest) []
  = wd :: PyStr.split_go rest [].
Proof.
  intros [Hne Hw] Hc. rewrite (split_go_word _ _ _ Hw).
  cbn [PyStr.split_go]. rewrite Hc, app_nil_r.
  destruct (rev (list_ascii_of_string wd)) as [|x m] eqn:E.
  - apply (f_equal (@List.length ascii)) in E. rewrite length_rev in E.
    destruct wd; [now destruct Hne | discriminate].
  - rewrite <- E, rev_involutive, string_of_list_ascii_of_string. reflexivity.
Qed.

Lemma split_go_last_word (wd : string) :
  is_word wd -> PyStr.split_go (list_ascii_of_string wd) [] = [wd].
Proof.
  intros [Hne Hw].
  rewrite <- (app_nil_r (list_ascii_of_string wd)), (split_go_word _ _ _ Hw).
  cbn [PyStr.split_go]. rewrite app_nil_r.
  destruct (rev (list_ascii_of_string wd)) as [|x m] eqn:E.
  - apply (f_equal (@List.length ascii)) in E. rewrite length_rev in E.
    destruct wd; [now destruct Hne | discriminate].
  - rewrite <- E, rev_involutive, string_of_list_ascii_of_string. reflexivity.
Qed.

Lemma split_blank (s : string) : is_blank s -> PyStr.split s = [].
Proof.
  intros H. unfold PyStr.split.
  rewrite <- (app_nil_l (list_ascii_of_string s)).
  now rewrite (split_go_app_blank [] _ [] H).
Qed.

End SplitFacts.

Lemma split_three_words (w1 w2 w3 tail : string) (s1 s2 : ascii) :
  is_word w1 -> is_word w2 -> is_word w3 ->
  PyStr.str_isspace s1 = true -> PyStr.str_isspace s2 = true ->
  (tail = "" \/ exists c t, tail = String c t /\ PyStr.str_isspace c = true) ->
  PyStr.split (w1 +:+ String s1 (w2 +:+ String s2 (w3 +:+ tail))) !! 2%nat
  = Some w3.
Proof.
  intros H1 H2 H3 Hs1 Hs2 Ht. unfold PyStr.split.
  rewrite list_of_append. cbn [list_ascii_of_string].
  rewrite (split_go_word_then_blank w1 s1 _ H1 Hs1).
  rewrite list_of_append. cbn [list_ascii_of_string].
  rewrite (split_go_word_then_blank w2 s2 _ H2 Hs2).
  destruct Ht as [->|(c & t & -> & Hc)].
  - rewrite append_empty_r, (split_go_last_word w3 H3). reflexivity.
  - rewrite list_of_append. cbn [list_ascii_of_string].
    rewrite (split_go_word_then_blank w3 c _ H3 Hc). reflexivity.
Qed.

(** X15: when what [command -V app] printed on its standard output is
    ASCII text, [app_path] returns its third whitespace-separated word,
    whatever follows it: the path for [app is /usr/bin/app], but also
    [a] for [cd is a shell builtin]. *)
Theorem app_path_third_word
    (w : world) (app : string) (st : sys) (p : proc)
    (w1 w2 w3 tail : string) (s1 s2 : ascii) :
  spawn w (cwd st) ["command"; "-V"; app] = Some p ->
  is_ascii (written STDOUT (writes p)) ->
  written STDOUT (writes p) = w1 +:+ String s1 (w2 +:+ String s2 (w3 +:+ tail)) ->
  is_word w1 -> is_word w2 -> is_word w3 ->
  PyStr.str_isspace s1 = true -> PyStr.str_isspace s2 = true ->
  (tail = "" \/ exists c t, tail = String c t /\ PyStr.str_isspace c = true) ->
  fst (app_path w app st) = Ok (Some w3).
Proof.
  intros Hsp _ Hout H1 H2 H3 Hs1 Hs2 Ht.
  unfold app_path, bind, popen_communicate. rewrite Hsp, Hout.
  rewrite split_rstrip, (split_three_words _ _ _ _ _ _ H1 H2 H3 Hs1 Hs2 Ht).
  destruct w1 as [|c w1]; [now destruct H1|]. reflexivity.
Qed.

Lemma app_path_third_word_witness :
  let w := {| environ := ∅;
              spawn := fun _ _ =>
                Some {| writes := [(STDOUT, "cd is a shell builtin" +:+ nl)];
                        returncode := 0 |};
              writable := fun _ => true; isdir := fun _ => true;
              fileexist := fun _ => true; apply_schema := fun _ _ o => Ok o |} in
  fst (app_path w "cd" Sample.sys0) = Ok (Some "a").
Proof.
  cbn zeta.
  apply (app_path_third_word _ "cd" Sample.sys0
           {| writes := [(STDOUT, "cd is a shell builtin" +:+ nl)]; returncode := 0 |}
           "cd" "is" "a" (" shell builtin" +:+ nl) " " " ");
    try reflexivity.
  - split; [discriminate | repeat constructor].
  - split; [discriminate | repeat constructor].
  - split; [discriminate | repeat constructor].
  - right. eexists _, _. split; reflexivity.
Defined.

(** X16: given that [command -V app] could be spawned, [app_path]
    returns [None] exactly when it printed nothing on its standard
    output; when it printed only blanks, [app_path] raises [IndexError];
    and the exit code of the command plays no part. *)
Theorem app_path_none_iff (w : world) (app : string) (st : sys) (p : proc) :
  spawn w (cwd st) ["command"; "-V"; app] = Some p ->
  (fst (app_path w app st) = Ok None <-> written STDOUT (writes p) = "") /\
  (written STDOUT (writes p) <> "" -> is_blank (written STDOUT (writes p)) ->
   fst (app_path w app st) = Raise IndexError).
Proof.
  intros Hsp. unfold app_path, bind, popen_communicate. rewrite Hsp.
  destruct (written STDOUT (writes p)) as [|c out] eqn:Hout.
  - split; [split; reflexivity | intros H; now destruct H].
  - cbn [String.length Nat.ltb Nat.leb]. split.
    + split; [|discriminate].
      destruct (PyStr.split (PyStr.rstrip (String c out)) !! 2%nat); discriminate.
    + intros _ Hb. now rewrite split_rstrip, (split_blank _ Hb).
Qed.

Lemma app_path_none_iff_witness :
  fst (app_path (Sample.bare ∅) "mpirun" Sample.sys0) = Ok None.
Proof.
  apply (proj1 (app_path_none_iff (Sample.bare ∅) "mpirun" Sample.sys0 _ eq_refl)).
  reflexivity.
Defined.

(** * [tools/parser_interface.py] *)

(** ** Environment variables: set, then get *)

Lemma join_items_concat (items : list string) :
  Parser.join_items "," (map Parser.AStr items) = Ok (String.concat "," items).
Proof.
  induction items as [|s items IH]; [reflexivity|].
  destruct items as [|t items]; [reflexivity|].
  change (Parser.join_items "," (map Parser.AStr (s :: t :: items)))
    with (obind (Parser.join_items "," (map Parser.AStr (t :: items)))
                (fun r => Ok (s +:+ "," +:+ r))).
  rewrite IH. reflexivity.
Qed.

Lemma environ_setitem_ok (env : gmap string string) (envvar s : string) :
  env_name_ok envvar -> env_value_ok s ->
  Parser.environ_setitem env envvar (Parser.AStr s) = Ok (<[envvar := s]> env).
Proof.
  intros (Hne & _ & Heq & Hz) (_ & Hzs). unfold Parser.environ_setitem.
  rewrite Hz, Hzs, Heq. cbn [orb].
  destruct (String.eqb_spec envvar ""); [contradiction | reflexivity].
Qed.

(** X17: for a non-empty ASCII name without [=] or NUL, setting the
    variable to a list of strings stores them joined by commas and
    setting it to a string stores the string, provided the text stored
    is ASCII without NUL; [enviro_get] then returns what was stored, and
    every other variable reads as before.  A value that is neither a
    string nor a list ([None], a [bool], an [int]) raises [TypeError]. *)
Theorem enviro_set_get (w : world) (envvar : string) :
  env_name_ok envvar ->
  (forall items, env_value_ok (String.concat "," items) ->
     exists env',
       Parser.enviro_set (environ w) envvar (Parser.VList (map Parser.AStr items))
       = Ok env' /\
       enviro_get (with_environ env' w) envvar = Some (String.concat "," items) /\
       forall other, other <> envvar ->
         enviro_get (with_environ env' w) other = enviro_get w other) /\
  (forall s, env_value_ok s ->
     exists env',
       Parser.enviro_set (environ w) envvar (Parser.VAtom (Parser.AStr s)) = Ok env' /\
       enviro_get (with_environ env' w) envvar = Some s /\
       forall other, other <> envvar ->
         enviro_get (with_environ env' w) other = enviro_get w other) /\
  (forall a, (forall s, a <> Parser.AStr s) ->
     Parser.enviro_set (environ w) envvar (Parser.VAtom a) = Raise TypeError).
Proof.
  intros Hname. split; [|split].
  - intros items Hv. eexists. split.
    + unfold Parser.enviro_set. rewrite join_items_concat. cbn [obind].
      apply (environ_setitem_ok _ _ _ Hname Hv).
    + split; [rewrite enviro_get_lookup; apply lookup_insert_eq|].
      intros other Hne. rewrite !enviro_get_lookup. cbn.
      now apply lookup_insert_ne.
  - intros s Hv. eexists. split.
    + apply (environ_setitem_ok _ _ _ Hname Hv).
    + split; [rewrite enviro_get_lookup; apply lookup_insert_eq|].
      intros other Hne. rewrite !enviro_get_lookup. cbn.
      now apply lookup_insert_ne.
  - intros a Ha. destruct a; try reflexivity. now destruct (Ha s).
Qed.

Lemma enviro_set_get_witness :
  exists env',
    Parser.enviro_set ∅ "TASKS"
      (Parser.VList [Parser.AStr "4"; Parser.AStr "8"]) = Ok env' /\
    enviro_get (with_environ env' (Sample.bare ∅)) "TASKS" = Some "4,8".
Proof.
  destruct (proj1 (enviro_set_get (Sample.bare ∅) "TASKS"
                     ltac:(repeat split; discriminate))
              ["4"; "8"] ltac:(repeat split))
    as (env' & Hset & Hget & _).
  exists env'. split; [exact Hset | exact Hget].
Defined.

(** ** [singletrue] *)

Lemma any_iter_none (l : list bool) :
  fst (Parser.any_iter l) = false <-> count_occ bool_dec l true = 0%nat.
Proof.
  induction l as [|[] l IH]; cbn; [tauto | split; discriminate | exact IH].
Qed.

Lemma any_iter_count (l : list bool) :
  fst (Parser.any_iter l) = true ->
  count_occ bool_dec l true
  = S (count_occ bool_dec (snd (Parser.any_iter l)) true).
Proof.
  induction l as [|[] l IH]; cbn; [discriminate | reflexivity | exact IH].
Qed.

(** X18: [singletrue] is true exactly when the list holds exactly one
    true item; it is false on the empty list and as soon as two items
    are true. *)
Theorem singletrue_iff_one (bool_list : list bool) :
  Parser.singletrue bool_list = true <-> count_occ bool_dec bool_list true = 1%nat.
Proof.
  unfold Parser.singletrue.
  destruct (Parser.any_iter bool_list) as [has_true rest] eqn:E1.
  destruct (Parser.any_iter rest) as [another rest'] eqn:E2.
  pose proof (any_iter_none bool_list) as Hn.
  pose proof (any_iter_count bool_list) as Hc.
  pose proof (any_iter_none rest) as Hn2.
  pose proof (any_iter_count rest) as Hc2.
  rewrite E1 in Hn, Hc. rewrite E2 in Hn2, Hc2. cbn [fst snd] in *.
  destruct has_true, another; cbn; split; try discriminate; try reflexivity.
  - intros H. rewrite Hc, Hc2 in H by reflexivity. discriminate.
  - intros _. rewrite Hc by reflexivity. f_equal. now apply Hn2.
  - intros H. rewrite (proj1 Hn eq_refl) in H. discriminate.
  - intros H. rewrite (proj1 Hn eq_refl) in H. discriminate.
Qed.

(** ** [true_or_false] *)

Lemma prefix_of_TRUE (u : string) :
  PyStr.startswith u "TRUE" = true <-> In u [""; "T"; "TR"; "TRU"; "TRUE"].
Proof.
  split.
  - intros H. apply startswith_spec in H as [t Ht].
    destruct u as [|a u]; [cbn; auto|]. rewrite append_cons in Ht.
    injection Ht as <- Ht.
    destruct u as [|a u]; [cbn; auto|]. rewrite append_cons in Ht.
    injection Ht as <- Ht.
    destruct u as [|a u]; [cbn; auto|]. rewrite append_cons in Ht.
    injection Ht as <- Ht.
    destruct u as [|a u]; [cbn; auto|]. rewrite append_cons in Ht.
    injection Ht as <- Ht.
    destruct u as [|a u]; [cbn; auto 6|]. discriminate.
  - cbn. intros [<-|[<-|[<-|[<-|[<-|[]]]]]]; reflexivity.
Qed.

Lemma prefix_of_FALSE (u : string) :
  PyStr.startswith u "FALSE" = true
  <-> In u [""; "F"; "FA"; "FAL"; "FALS"; "FALSE"].
Proof.
  split.
  - intros H. apply startswith_spec in H as [t Ht].
    destruct u as [|a u]; [cbn; auto|]. rewrite append_cons in Ht.
    injection Ht as <- Ht.
    destruct u as [|a u]; [cbn; auto|]. rewrite append_cons in Ht.
    injection Ht as <- Ht.
    destruct u as [|a u]; [cbn; auto|]. rewrite append_cons in Ht.
    injection Ht as <- Ht.
    destruct u as [|a u]; [cbn; auto|]. rewrite append_cons in Ht.
    injection Ht as <- Ht.
    destruct u as [|a u]; [cbn; auto 6|]. rewrite append_cons in Ht.
    injection Ht as <- Ht.
    destruct u as [|a u]; [cbn; auto 7|]. discriminate.
  - cbn. intros [<-|[<-|[<-|[<-|[<-|[<-|[]]]]]]]; reflexivity.
Qed.

(** X19: on a value whose text is made of ASCII characters,
    [true_or_false] answers [True] exactly when the text, in upper case,
    is a prefix of [TRUE], the empty string included; [False] exactly
    when the upper-cased text is a non-empty prefix of [FALSE]; and
    [None] for everything else, [None] itself among them. *)
Theorem true_or_false_prefixes (argval : Parser.atom) :
  is_ascii (Parser.str argval) ->
  (Parser.true_or_false argval = Some true
   <-> In (PyStr.upper (Parser.str argval)) [""; "T"; "TR"; "TRU"; "TRUE"]) /\
  (Parser.true_or_false argval = Some false
   <-> In (PyStr.upper (Parser.str argval)) ["F"; "FA"; "FAL"; "FALS"; "FALSE"]) /\
  (Parser.true_or_false (Parser.ABool true) = Some true) /\
  (Parser.true_or_false (Parser.ABool false) = Some false) /\
  (Parser.true_or_false (Parser.AStr "") = Some true) /\
  (Parser.true_or_false Parser.ANone = None).
Proof.
  intros _. unfold Parser.true_or_false.
  split; [|split; [|repeat split]].
  - rewrite <- prefix_of_TRUE.
    destruct (PyStr.startswith _ "TRUE"); [tauto|].
    destruct (PyStr.startswith _ "FALSE"); split; discriminate.
  - destruct (PyStr.startswith _ "TRUE") eqn:Ht.
    + apply prefix_of_TRUE in Ht. split; [discriminate|].
      cbn in *. intros H.
      repeat match goal with
             | H : _ \/ _ |- _ => destruct H
             | H : False |- _ => destruct H
             end; congruence.
    + destruct (PyStr.startswith _ "FALSE") eqn:Hf.
      * apply prefix_of_FALSE in Hf. split; [intros _|reflexivity].
        destruct Hf as [Hf|Hf]; [|exact Hf].
        rewrite <- Hf in Ht. discriminate.
      * split; [discriminate|]. intros H.
        assert (PyStr.startswith (PyStr.upper (Parser.str argval)) "FALSE" = true)
          by (apply prefix_of_FALSE; now right).
        congruence.
Qed.

Lemma true_or_false_prefixes_witness :
  Parser.true_or_false (Parser.AStr "fal") = Some false /\
  Parser.true_or_false (Parser.AStr "yes") = None.
Proof.
  destruct (true_or_false_prefixes (Parser.AStr "fal") eq_refl)
    as (_ & Hfalse & _).
  split; [apply Hfalse; do 2 right; left; reflexivity|].
  destruct (true_or_false_prefixes (Parser.AStr "yes") eq_refl)
    as (Ht & Hf & _).
  destruct (Parser.true_or_false (Parser.AStr "yes")) as [[|]|] eqn:E;
    [|
     |reflexivity].
  - destruct (proj1 Ht eq_refl) as [H|[H|[H|[H|[H|[]]]]]]; discriminate H.
  - destruct (proj1 Hf eq_refl) as [H|[H|[H|[H|[H|[]]]]]]; discriminate H.
Defined.

(** ** [unique_list] *)

Lemma remove_spaces_id (s : string) :
  ~ In " "%char (list_ascii_of_string s) -> Parser.remove_spaces s = s.
Proof.
  induction s as [|c s IH]; [reflexivity|]. cbn. intros H.
  destruct (Ascii.eqb_spec c " ") as [->|Hc]; [destruct H; now left|].
  rewrite IH; [reflexivity|]. intros Hin. apply H. now right.
Qed.

(** X20: on strings without spaces, [unique_list] returns the distinct
    strings of its input, each once, in ascending order.  In general it
    returns one entry per distinct input string, but strips the spaces
    after it has removed the duplicates and sorted, so that [a b] and
    [ab] both come out as [ab]. *)
Theorem unique_list_sorted_distinct (in_list : list string) :
  (Forall (fun s => ~ In " "%char (list_ascii_of_string s)) in_list ->
   NoDup (Parser.unique_list in_list) /\
   StronglySorted String.le (Parser.unique_list in_list) /\
   forall x, x ∈ Parser.unique_list in_list <-> x ∈ in_list) /\
  List.length (Parser.unique_list in_list) = List.length (remove_dups in_list) /\
  Parser.unique_list ["a b"; "ab"; "a b"] = ["ab"; "ab"].
Proof.
  split; [|split].
  - intros Hns. unfold Parser.unique_list.
    assert (Hperm : merge_sort String.le (remove_dups in_list) ≡ₚ remove_dups in_list)
      by apply merge_sort_Permutation.
    assert (Hid : map Parser.remove_spaces (merge_sort String.le (remove_dups in_list))
                  = merge_sort String.le (remove_dups in_list)).
    { rewrite <- (map_id (merge_sort String.le (remove_dups in_list))) at 2.
      apply map_ext_in. intros s Hs. apply remove_spaces_id.
      apply list_elem_of_In in Hs. rewrite Hperm in Hs.
      rewrite elem_of_remove_dups in Hs.
      rewrite List.Forall_forall in Hns. apply Hns.
      apply list_elem_of_In. exact Hs. }
    rewrite Hid. split; [|split].
    + rewrite Hperm. apply NoDup_remove_dups.
    + apply StronglySorted_merge_sort; apply _.
    + intros x. rewrite Hperm. apply elem_of_remove_dups.
  - unfold Parser.unique_list. rewrite length_map.
    apply Permutation_length, merge_sort_Permutation.
  - vm_compute. reflexivity.
Qed.

Lemma unique_list_sorted_distinct_witness :
  Parser.unique_list ["srun"; "mpirun"; "srun"; "aprun"] = ["aprun"; "mpirun"; "srun"] /\
  NoDup (Parser.unique_list ["srun"; "mpirun"; "srun"; "aprun"]).
Proof.
  split; [vm_compute; reflexivity|].
  apply (proj1 (unique_list_sorted_distinct ["srun"; "mpirun"; "srun"; "aprun"])).
  repeat (apply List.Forall_cons; [vm_compute; intuition discriminate|]).
  apply List.Forall_nil.
Defined.

(** ** [string_parser] *)

Lemma word_of_run (cur : list ascii) :
  cur <> [] -> Forall (fun c => PyStr.str_isspace c = false) cur ->
  is_word (string_of_list_ascii (rev cur)).
Proof.
  intros Hne Hc. split.
  - intros H. apply (f_equal list_ascii_of_string) in H.
    rewrite list_ascii_of_string_of_list_ascii in H. cbn in H.
    apply (f_equal (@List.length ascii)) in H. rewrite length_rev in H.
    destruct cur; [now destruct Hne | discriminate].
  - rewrite list_ascii_of_string_of_list_ascii. now apply List.Forall_rev.
Qed.

Lemma split_go_words (l cur : list ascii) :
  Forall (fun c => PyStr.str_isspace c = false) cur ->
  Forall is_word (PyStr.split_go l cur).
Proof.
  revert cur. induction l as [|c l IH]; intros cur Hcur; cbn [PyStr.split_go].
  - destruct cur as [|x cur]; [constructor|].
    constructor; [|constructor]. now apply word_of_run.
  - destruct (PyStr.str_isspace c) eqn:Hc.
    + destruct cur as [|x cur]; [now apply IH|].
      constructor; [now apply word_of_run | now apply IH].
    + apply IH. now constructor.
Qed.

Lemma split_words (s : string) : Forall is_word (PyStr.split s).
Proof. apply split_go_words. constructor. Qed.

Lemma split_go_nil_inv (l cur : list ascii) :
  PyStr.split_go l cur = [] ->
  cur = [] /\ Forall (fun c => PyStr.str_isspace c = true) l.
Proof.
  revert cur. induction l as [|c l IH]; intros cur; cbn [PyStr.split_go].
  - destruct cur; [split; [reflexivity | constructor] | discriminate].
  - destruct (PyStr.str_isspace c) eqn:Hc.
    + destruct cur; [|discriminate]. intros H.
      destruct (IH [] H) as [_ Hl]. split; [reflexivity | now constructor].
    + intros H. destruct (IH _ H) as [Habs _]. discriminate.
Qed.

Lemma split_nil_iff (s : string) : PyStr.split s = [] <-> is_blank s.
Proof.
  split; [|apply split_blank].
  intros H. now destruct (split_go_nil_inv _ _ H).
Qed.

Lemma split_word (wd : string) : is_word wd -> PyStr.split wd = [wd].
Proof. apply split_go_last_word. Qed.

Lemma parse_item_spec (item : Parser.atom) :
  match Parser.parse_item item with
  | Ok out => first_word_of item out
  | Raise e => e = IndexError /\ exists s, item = Parser.AStr s /\ is_blank s
  end.
Proof.
  destruct item as [| | |s]; cbn; try reflexivity.
  pose proof (split_words s) as Hw. pose proof (split_nil_iff s) as Hn.
  destruct (PyStr.split s) as [|word ws].
  - split; [reflexivity|]. exists s. split; [reflexivity | now apply Hn].
  - exists word. inversion Hw; subst. auto.
Qed.

Lemma parse_items_spec (in_list : list Parser.atom) :
  match Parser.parse_items in_list with
  | Ok out => Forall2 first_word_of in_list out
  | Raise e => e = IndexError /\
               exists s, In (Parser.AStr s) in_list /\ is_blank s
  end.
Proof.
  induction in_list as [|item in_list IH]; [constructor|].
  cbn [Parser.parse_items]. pose proof (parse_item_spec item) as Hi.
  destruct (Parser.parse_item item) as [out|e]; cbn [obind].
  - destruct (Parser.parse_items in_list) as [outs|e]; cbn [obind].
    + now constructor.
    + destruct IH as (-> & s & Hin & Hb). split; [reflexivity|].
      exists s. split; [now right | exact Hb].
  - destruct Hi as (-> & s & -> & Hb). split; [reflexivity|].
    exists s. split; [now left | exact Hb].
Qed.

Lemma parse_items_blank (in_list : list Parser.atom) (s : string) :
  In (Parser.AStr s) in_list -> is_blank s ->
  Parser.parse_items in_list = Raise IndexError.
Proof.
  intros Hin Hb. induction in_list as [|item in_list IH]; [destruct Hin|].
  cbn [Parser.parse_items]. pose proof (parse_item_spec item) as Hi.
  destruct (Parser.parse_item item) as [out|e] eqn:Ei; cbn [obind].
  - destruct Hin as [->|Hin].
    + cbn in Ei. rewrite (proj2 (split_nil_iff s) Hb) in Ei. discriminate.
    + now rewrite (IH Hin).
  - now destruct Hi as (-> & _).
Qed.

(** X21: on a list whose [str] items are made of ASCII characters,
    [string_parser] raises exactly when some item is a blank string,
    the empty string included, and what it raises is [IndexError].
    When it returns, without [remove_comma], the output has one item
    per input item: the first word of each [str], every other item as
    it was.  Text is never turned into a number or a boolean. *)
Theorem string_parser_first_words
    (in_list : list Parser.atom) (remove_comma : bool) :
  Forall ascii_atom in_list ->
  (forall e, Parser.string_parser in_list remove_comma = Raise e ->
     e = IndexError /\ exists s, In (Parser.AStr s) in_list /\ is_blank s) /\
  ((exists s, In (Parser.AStr s) in_list /\ is_blank s) ->
   Parser.string_parser in_list remove_comma = Raise IndexError) /\
  (forall out, Parser.string_parser in_list false = Ok out ->
     Forall2 first_word_of in_list out).
Proof.
  intros _.
  unfold Parser.string_parser. pose proof (parse_items_spec in_list) as Hs.
  split; [|split].
  - intros e. destruct (Parser.parse_items in_list); cbn; [discriminate|].
    intros [= <-]. exact Hs.
  - intros (s & Hin & Hb). now rewrite (parse_items_blank in_list s Hin Hb).
  - intros out. destruct (Parser.parse_items in_list); cbn; [|discriminate].
    now intros [= <-].
Qed.

Lemma string_parser_first_words_witness :
  Parser.string_parser [Parser.AStr "12"; Parser.AStr "   "; Parser.AInt 3] false
  = Raise IndexError.
Proof.
  apply (proj1 (proj2 (string_parser_first_words
                         [Parser.AStr "12"; Parser.AStr "   "; Parser.AInt 3] false
                         ltac:(repeat constructor)))).
  exists "   ". split; [right; now left | repeat constructor].
Defined.

(** X22: [string_parser] is idempotent: applied to what it returned, it
    returns the same list. *)
Theorem string_parser_idempotent (in_list out : list Parser.atom) :
  Parser.string_parser in_list false = Ok out ->
  Parser.string_parser out false = Ok out.
Proof.
  unfold Parser.string_parser. intros H.
  assert (HF : Forall2 first_word_of in_list out).
  { pose proof (parse_items_spec in_list) as Hs.
    destruct (Parser.parse_items in_list); cbn in H; [|discriminate].
    now injection H as <-. }
  clear H.
  assert (Hp : Parser.parse_items out = Ok out); [|now rewrite Hp].
  induction HF as [|item o in_list out Hrel _ IH]; [reflexivity|].
  cbn [Parser.parse_items]. rewrite IH.
  assert (Hi : Parser.parse_item o = Ok o); [|now rewrite Hi].
  destruct item; cbn in Hrel; subst; try reflexivity.
  destruct Hrel as (word & -> & Hw & _). cbn. now rewrite (split_word word Hw).
Qed.

Lemma string_parser_idempotent_witness :
  exists out,
    Parser.string_parser [Parser.AStr " 12 km"; Parser.ABool true] false = Ok out /\
    out = [Parser.AStr "12"; Parser.ABool true] /\
    Parser.string_parser out false = Ok out.
Proof.
  eexists. split; [vm_compute; reflexivity|]. split; [reflexivity|].
  apply (string_parser_idempotent [Parser.AStr " 12 km"; Parser.ABool true]).
  vm_compute. reflexivity.
Defined.

(** ** [dict_key_value] *)

Lemma switches_ok_checks (mx mn : bool) (ix : option Z) :
  switches_ok mx mn ix ->
  mx && mn = false /\
  bool_decide (is_Some ix) && mx = false /\
  bool_decide (is_Some ix) && mn = false.
Proof.
  intros [H1 H2]. destruct ix as [i|].
  - destruct (H2 ltac:(discriminate)) as [-> ->]. now rewrite !andb_false_r.
  - rewrite bool_decide_eq_false_2 by (intros [x Hx]; discriminate).
    destruct H1 as [-> | ->]; now rewrite ?andb_false_r.
Qed.

(** X23: [dict_key_value] raises [ParserInterfaceError] when both the
    maximum and the minimum are asked for, whatever the dictionary
    holds.  With switches that pass the checks and a key that is not in
    the dictionary it returns [None] under [force] and raises
    [ParserInterfaceError] naming the key otherwise.  A value that is
    there is handed back untouched when [no_split] is set or when it is
    not a string, whatever maximum, minimum or index was asked for. *)
Theorem dict_key_value_edges
    (dict_in : gmap string Parser.value) (key : string)
    (force max_value min_value : bool) (index_value : option Z) (no_split : bool) :
  (max_value = true -> min_value = true ->
   exists msg,
     Parser.dict_key_value dict_in key force max_value min_value index_value no_split
     = Parser.Raises (Parser.ParserInterfaceError msg)) /\
  (switches_ok max_value min_value index_value -> dict_in !! key = None ->
   (force = true ->
    Parser.dict_key_value dict_in key force max_value min_value index_value no_split
    = Parser.Return (Parser.VAtom Parser.ANone)) /\
   (force = false ->
    exists msg,
      Parser.dict_key_value dict_in key force max_value min_value index_value no_split
      = Parser.Raises (Parser.ParserInterfaceError msg) /\
      PyStr.contains key msg)) /\
  (forall v, switches_ok max_value min_value index_value ->
     dict_in !! key = Some v ->
     no_split = true \/ (forall s, v <> Parser.VAtom (Parser.AStr s)) ->
     Parser.dict_key_value dict_in key force max_value min_value index_value no_split
     = Parser.Return v).
Proof.
  unfold Parser.dict_key_value. split; [|split].
  - intros -> ->. eexists. reflexivity.
  - intros Hok Hk. destruct (switches_ok_checks _ _ _ Hok) as (-> & -> & ->).
    rewrite Hk. split; intros ->; cbn [negb]; [reflexivity|].
    eexists. split; [reflexivity|]. solve_contains.
  - intros v Hok Hk Hv. destruct (switches_ok_checks _ _ _ Hok) as (-> & -> & ->).
    rewrite Hk. destruct no_split; [reflexivity|].
    destruct Hv as [Hv|Hv]; [discriminate|].
    destruct v as [[| | |s]|l]; try reflexivity. now destruct (Hv s).
Qed.

Lemma dict_key_value_edges_witness :
  exists msg,
    Parser.dict_key_value {["nx" := Parser.VAtom (Parser.AInt 4)]} "ny"
      false false false None false
    = Parser.Raises (Parser.ParserInterfaceError msg) /\
    PyStr.contains "ny" msg.
Proof.
  apply (proj1 (proj2 (dict_key_value_edges
                         {["nx" := Parser.VAtom (Parser.AInt 4)]} "ny"
                         false false false None false))).
  - split; [now left | intros H; now destruct H].
  - reflexivity.
  - reflexivity.
Defined.

Lemma split_on_go_field (f rest cur : list ascii) (sep : ascii) :
  ~ In sep f ->
  Parser.split_on_go sep (f ++ rest) cur
  = Parser.split_on_go sep rest (rev f ++ cur)%list.
Proof.
  revert cur. induction f as [|c f IH]; intros cur Hf; [reflexivity|].
  cbn [app Parser.split_on_go].
  destruct (Ascii.eqb_spec c sep) as [->|Hc]; [destruct Hf; now left|].
  rewrite IH by (intros H; apply Hf; now right).
  cbn [rev]. now rewrite <- app_assoc.
Qed.

Lemma split_on_concat (ws : list string) :
  ws <> [] ->
  Forall (fun s => ~ In ","%char (list_ascii_of_string s)) ws ->
  Parser.split_on "," (String.concat "," ws) = ws.
Proof.
  intros Hne Hf. unfold Parser.split_on.
  induction Hf as [|wd ws Hw Hws IH]; [now destruct Hne|].
  destruct ws as [|wd' ws].
  - cbn [String.concat].
    rewrite <- (app_nil_r (list_ascii_of_string wd)), (split_on_go_field _ _ _ _ Hw).
    cbn [Parser.split_on_go].
    now rewrite app_nil_r, rev_involutive, string_of_list_ascii_of_string.
  - change (String.concat "," (wd :: wd' :: ws))
      with (wd +:+ String "," (String.concat "," (wd' :: ws))).
    rewrite list_of_append. cbn [list_ascii_of_string].
    rewrite (split_on_go_field _ _ _ _ Hw). cbn [Parser.split_on_go].
    replace (Ascii.eqb "," ",") with true by reflexivity.
    rewrite app_nil_r, rev_involutive, string_of_list_ascii_of_string.
    f_equal. apply IH. discriminate.
Qed.

Lemma parse_items_words (ws : list string) :
  Forall is_word ws ->
  Parser.parse_items (map Parser.AStr ws) = Ok (map Parser.AStr ws).
Proof.
  induction 1 as [|wd ws Hw _ IH]; [reflexivity|].
  cbn [map Parser.parse_items Parser.parse_item].
  now rewrite (split_word wd Hw), IH.
Qed.

(** X24: a value that is a comma-separated list of fields (words of
    ASCII characters without commas) comes back as the list of those
    fields, a single field as a list of one; with an index [i] between [-n] and [n-1], [n] the number
    of fields, the field at position [i mod n] comes back, and any other
    index raises [IndexError]. *)
Theorem dict_key_value_fields
    (dict_in : gmap string Parser.value) (key : string) (force : bool)
    (ws : list string) :
  ws <> [] -> Forall is_field ws -> Forall is_ascii ws ->
  dict_in !! key = Some (Parser.VAtom (Parser.AStr (String.concat "," ws))) ->
  Parser.dict_key_value dict_in key force false false None false
  = Parser.Return (Parser.VList (map Parser.AStr ws)) /\
  forall i : Z,
    let n := Z.of_nat (List.length ws) in
    (- n <= i < n ->
     exists wd, ws !! Z.to_nat (i mod n) = Some wd /\
       Parser.dict_key_value dict_in key force false false (Some i) false
       = Parser.Return (Parser.VAtom (Parser.AStr wd))) /\
    (i < - n \/ n <= i ->
     Parser.dict_key_value dict_in key force false false (Some i) false
     = Parser.Raises (Parser.Builtin IndexError)).
Proof.
  intros Hne Hf _ Hk.
  assert (Hw : Forall is_word ws).
  { eapply List.Forall_impl; [|exact Hf]. now intros s [H _]. }
  assert (Hc : Forall (fun s => ~ In ","%char (list_ascii_of_string s)) ws).
  { eapply List.Forall_impl; [|exact Hf]. now intros s [_ H]. }
  assert (Hgo : forall ix,
            Parser.dict_key_value dict_in key force false false ix false
            = match ix with
              | Some i =>
                  Parser.lift_outcome
                    (obind (Parser.py_index (map Parser.AStr ws) i)
                           (fun a => Ok (Parser.VAtom a)))
              | None => Parser.Return (Parser.VList (map Parser.AStr ws))
              end).
  { intros ix. unfold Parser.dict_key_value. rewrite Hk.
    rewrite !andb_false_r. cbn [andb negb].
    unfold Parser.split_value, Parser.string_parser.
    rewrite (split_on_concat ws Hne Hc), (parse_items_words ws Hw).
    reflexivity. }
  split; [apply (Hgo None)|].
  intros i n. rewrite (Hgo (Some i)). clear Hgo.
  unfold Parser.py_index. rewrite length_map. fold n.
  assert (Hn : 0 < n) by (destruct ws; [now destruct Hne | unfold n; cbn; lia]).
  split.
  - intros Hi.
    assert (Hj : (if i <? 0 then i + n else i) = i mod n).
    { destruct (Z.ltb_spec i 0).
      - symmetry. rewrite <- (Z.mod_add i 1 n) by lia.
        rewrite Z.mul_1_l. apply Z.mod_small. lia.
      - symmetry. apply Z.mod_small. lia. }
    rewrite Hj.
    assert (Hr : 0 <= i mod n < n) by (apply Z.mod_pos_bound; lia).
    replace (i mod n <? 0) with false by (symmetry; apply Z.ltb_ge; lia).
    replace (n <=? i mod n) with false by (symmetry; apply Z.leb_gt; lia).
    cbn [orb].
    destruct (ws !! Z.to_nat (i mod n)) as [wd|] eqn:El.
    + exists wd. split; [reflexivity|].
      now rewrite list_lookup_fmap, El.
    + apply lookup_ge_None in El. clear Hj. unfold n in *.
      remember (i mod Z.of_nat (List.length ws)) as j. lia.
  - intros Hi.
    destruct (Z.ltb_spec i 0).
    + destruct Hi as [Hi|Hi]; [|lia].
      replace (i + n <? 0) with true by (symmetry; apply Z.ltb_lt; lia).
      reflexivity.
    + destruct Hi as [Hi|Hi]; [lia|].
      replace (i <? 0) with false by (symmetry; apply Z.ltb_ge; lia).
      replace (n <=? i) with true by (symmetry; apply Z.leb_le; lia).
      reflexivity.
Qed.

Lemma dict_key_value_fields_witness :
  Parser.dict_key_value
    {["levels" := Parser.VAtom (Parser.AStr "1000,850,500")]} "levels"
    false false false None false
  = Parser.Return
      (Parser.VList [Parser.AStr "1000"; Parser.AStr "850"; Parser.AStr "500"]).
Proof.
  apply (dict_key_value_fields
           {["levels" := Parser.VAtom (Parser.AStr "1000,850,500")]} "levels" false
           ["1000"; "850"; "500"]).
  - discriminate.
  - repeat (apply List.Forall_cons;
            [split; [split; [discriminate | repeat constructor]
                    | vm_compute; intuition discriminate]|]).
    apply List.Forall_nil.
  - repeat constructor.
  - reflexivity.
Defined.

(** X25: a string value with a blank field between its commas, the
    empty string included, makes [dict_key_value] raise [IndexError]
    unless [no_split] is set; [force] does not prevent it. *)
Theorem dict_key_value_blank_field
    (dict_in : gmap string Parser.value) (key : string)
    (force max_value min_value : bool) (index_value : option Z)
    (s field : string) :
  switches_ok max_value min_value index_value ->
  dict_in !! key = Some (Parser.VAtom (Parser.AStr s)) ->
  In field (Parser.split_on "," s) -> is_blank field ->
  Parser.dict_key_value dict_in key force max_value min_value index_value false
  = Parser.Raises (Parser.Builtin IndexError).
Proof.
  intros Hok Hk Hin Hb. unfold Parser.dict_key_value.
  destruct (switches_ok_checks _ _ _ Hok) as (-> & -> & ->). rewrite Hk.
  unfold Parser.split_value, Parser.string_parser.
  rewrite (parse_items_blank (map Parser.AStr (Parser.split_on "," s)) field);
    [reflexivity | | exact Hb].
  apply in_map_iff. now exists field.
Qed.

Lemma dict_key_value_blank_field_witness :
  Parser.dict_key_value {["levels" := Parser.VAtom (Parser.AStr "1000,,500")]}
    "levels" true false false None false
  = Parser.Raises (Parser.Builtin IndexError) /\
  Parser.dict_key_value {["levels" := Parser.VAtom (Parser.AStr "")]}
    "levels" true false false None false
  = Parser.Raises (Parser.Builtin IndexError).
Proof.
  split.
  - apply (dict_key_value_blank_field _ "levels" true false false None
             "1000,,500" "");
      [split; [now left | intros H; now destruct H] | reflexivity
      | vm_compute; tauto | constructor].
  - apply (dict_key_value_blank_field _ "levels" true false false None "" "");
      [split; [now left | intros H; now destruct H] | reflexivity
      | vm_compute; tauto | constructor].
Defined.

Lemma ltb_le (a b : string) : String.ltb a b = true -> String.le a b.
Proof.
  intros H. apply Is_true_true. unfold String.ltb in H. unfold String.leb.
  destruct (String.compare a b); congruence.
Qed.

Lemma not_ltb_le (a b : string) : String.ltb a b = false -> String.le b a.
Proof.
  intros H. apply Is_true_true. unfold String.ltb in H. unfold String.leb.
  rewrite (String.compare_antisym b a).
  destruct (String.compare a b); cbn; congruence.
Qed.

Lemma extremum_max (best : string) (l : list string) :
  exists m,
    Parser.extremum (fun x best => String.ltb best x) best (map Parser.AStr l)
    = Ok (Parser.AStr m) /\
    In m (best :: l) /\ forall wd, In wd (best :: l) -> String.le wd m.
Proof.
  revert best. induction l as [|x l IH]; intros best.
  - exists best. split; [reflexivity|]. split; [now left|].
    intros wd [<-|[]]. reflexivity.
  - cbn [map Parser.extremum].
    destruct (IH (if String.ltb best x then x else best)) as (m & Hm & Hin & Hle).
    exists m. split; [exact Hm|]. split.
    + destruct Hin as [<-|Hin]; [|right; now right].
      destruct (String.ltb best x); [right; now left | now left].
    + assert (Hb : String.le (if String.ltb best x then x else best) m)
        by (apply Hle; now left).
      intros wd [<-|[<-|Hw]].
      * destruct (String.ltb best x) eqn:E; [|exact Hb].
        etrans; [apply (ltb_le _ _ E) | exact Hb].
      * destruct (String.ltb best x) eqn:E; [exact Hb|].
        etrans; [apply (not_ltb_le _ _ E) | exact Hb].
      * apply Hle. now right.
Qed.

Lemma extremum_min (best : string) (l : list string) :
  exists m,
    Parser.extremum (fun x best => String.ltb x best) best (map Parser.AStr l)
    = Ok (Parser.AStr m) /\
    In m (best :: l) /\ forall wd, In wd (best :: l) -> String.le m wd.
Proof.
  revert best. induction l as [|x l IH]; intros best.
  - exists best. split; [reflexivity|]. split; [now left|].
    intros wd [<-|[]]. reflexivity.
  - cbn [map Parser.extremum].
    destruct (IH (if String.ltb x best then x else best)) as (m & Hm & Hin & Hle).
    exists m. split; [exact Hm|]. split.
    + destruct Hin as [<-|Hin]; [|right; now right].
      destruct (String.ltb x best); [right; now left | now left].
    + assert (Hb : String.le m (if String.ltb x best then x else best))
        by (apply Hle; now left).
      intros wd [<-|[<-|Hw]].
      * destruct (String.ltb x best) eqn:E; [|exact Hb].
        etrans; [exact Hb | apply (ltb_le _ _ E)].
      * destruct (String.ltb x best) eqn:E; [exact Hb|].
        etrans; [exact Hb | apply (not_ltb_le _ _ E)].
      * apply Hle. now right.
Qed.

(** X26: on a comma-separated list of fields of ASCII characters,
    [max_value] returns a field that no field exceeds and [min_value] a
    field that exceeds none, in the order of strings: the fields are
    compared as text, not as numbers, so that of [10,9] the maximum is
    [9]. *)
Theorem dict_key_value_extrema
    (dict_in : gmap string Parser.value) (key : string) (force : bool)
    (ws : list string) :
  ws <> [] -> Forall is_field ws -> Forall is_ascii ws ->
  dict_in !! key = Some (Parser.VAtom (Parser.AStr (String.concat "," ws))) ->
  (exists m,
     Parser.dict_key_value dict_in key force true false None false
     = Parser.Return (Parser.VAtom (Parser.AStr m)) /\
     In m ws /\ forall wd, In wd ws -> String.le wd m) /\
  (exists m,
     Parser.dict_key_value dict_in key force false true None false
     = Parser.Return (Parser.VAtom (Parser.AStr m)) /\
     In m ws /\ forall wd, In wd ws -> String.le m wd).
Proof.
  intros Hne Hf _ Hk.
  assert (Hw : Forall is_word ws).
  { eapply List.Forall_impl; [|exact Hf]. now intros s [H _]. }
  assert (Hc : Forall (fun s => ~ In ","%char (list_ascii_of_string s)) ws).
  { eapply List.Forall_impl; [|exact Hf]. now intros s [_ H]. }
  destruct ws as [|w0 ws]; [now destruct Hne|].
  split.
  - destruct (extremum_max w0 ws) as (m & Hm & Hin & Hle).
    exists m. split; [|split; assumption].
    unfold Parser.dict_key_value. rewrite Hk. cbn [andb negb].
    rewrite bool_decide_eq_false_2 by (intros [x Hx]; discriminate).
    cbn [andb]. unfold Parser.split_value, Parser.string_parser.
    rewrite (split_on_concat _ Hne Hc), (parse_items_words _ Hw).
    cbn [obind map Parser.py_max]. now rewrite Hm.
  - destruct (extremum_min w0 ws) as (m & Hm & Hin & Hle).
    exists m. split; [|split; assumption].
    unfold Parser.dict_key_value. rewrite Hk. cbn [andb negb].
    rewrite bool_decide_eq_false_2 by (intros [x Hx]; discriminate).
    cbn [andb]. unfold Parser.split_value, Parser.string_parser.
    rewrite (split_on_concat _ Hne Hc), (parse_items_words _ Hw).
    cbn [obind map Parser.py_min]. now rewrite Hm.
Qed.

Lemma dict_key_value_extrema_witness :
  exists m,
    Parser.dict_key_value {["n" := Parser.VAtom (Parser.AStr "10,9")]} "n"
      false true false None false
    = Parser.Return (Parser.VAtom (Parser.AStr m)) /\ m = "9".
Proof.
  destruct (proj1 (dict_key_value_extrema
                     {["n" := Parser.VAtom (Parser.AStr "10,9")]} "n" false
                     ["10"; "9"] ltac:(discriminate)
                     ltac:(repeat (apply List.Forall_cons;
                             [split; [split; [discriminate | repeat constructor]
                                     | vm_compute; intuition discriminate]|]);
                           apply List.Forall_nil)
                     ltac:(repeat constructor)
                     eq_refl)) as (m & Hm & _ & _).
  exists m. split; [exact Hm|].
  vm_compute in Hm. now inversion Hm.
Defined.

(** ** [update_dict] *)

Lemma update_step_spec (default_dict output_dict : gmap string Parser.value)
    (update_none : bool) (key : string) (v : Parser.value) :
  default_dict !! key = Some v ->
  Parser.update_step default_dict update_none key output_dict
  = Parser.Return
      (if update_none then output_dict
       else match output_dict !! key with
            | Some _ => output_dict
            | None => <[key := v]> output_dict
            end).
Proof.
  intros Hk. unfold Parser.update_step, Parser.dict_key_value. rewrite Hk.
  cbn [andb].
  destruct (output_dict !! key) as [x|] eqn:Eo.
  - rewrite bool_decide_eq_true_2 by (now exists x). now destruct update_none.
  - rewrite bool_decide_eq_false_2 by (intros [x Hx]; discriminate).
    now destruct update_none.
Qed.

(** X27: [update_dict] never raises.  Without [update_none] it returns
    the base dictionary completed by the defaults: every key of the base
    keeps the value the base gives it, also when that value is [None],
    and every other key of the defaults is added with its default.  With
    [update_none] set it returns the base dictionary as it is: no
    default is copied at all. *)
Theorem update_dict_completes (default_dict base_dict : gmap string Parser.value) :
  Parser.update_dict default_dict base_dict false
  = Parser.Return (base_dict ∪ default_dict) /\
  Parser.update_dict default_dict base_dict true = Parser.Return base_dict.
Proof.
  assert (H : forall update_none,
             default_dict ⊆ default_dict ->
             Parser.update_dict default_dict base_dict update_none
             = Parser.Return (if update_none then base_dict
                              else base_dict ∪ default_dict)).
  { intros update_none. unfold Parser.update_dict.
    apply (map_fold_weak_ind
             (fun r m => m ⊆ default_dict ->
                r = Parser.Return (if update_none then base_dict
                                   else base_dict ∪ m))).
    - intros _. destruct update_none; [reflexivity|].
      now rewrite (right_id_L ∅ (∪)).
    - intros i x m r Hi IH Hsub.
      assert (Hd : default_dict !! i = Some x).
      { eapply lookup_weaken; [apply lookup_insert_eq | exact Hsub]. }
      assert (Hm : m ⊆ default_dict).
      { etrans; [|exact Hsub]. now apply insert_subseteq. }
      rewrite (IH Hm), (update_step_spec _ _ _ _ _ Hd).
      destruct update_none; [reflexivity|]. f_equal.
      destruct ((base_dict ∪ m) !! i) as [y|] eqn:Eu.
      + apply lookup_union_Some_raw in Eu as [Hb|[_ Hmi]]; [|congruence].
        apply map_eq. intros j. rewrite !lookup_union.
        destruct (decide (i = j)) as [<-|Hne].
        * rewrite Hb, Hi, lookup_insert_eq. reflexivity.
        * now rewrite lookup_insert_ne.
      + apply lookup_union_None in Eu as [Hb _].
        now rewrite insert_union_r. }
  split; [apply (H false) | apply (H true)]; reflexivity.
Qed.

(** ** [match_list] *)

Lemma islower_not_isupper (s : string) :
  Parser.islower s = true -> Parser.isupper s = false.
Proof.
  unfold Parser.islower, Parser.isupper.
  destruct (existsb Parser.is_lower_letter _); [|discriminate].
  intros _. now rewrite andb_false_r.
Qed.


Lemma first_match_Some (test : string -> bool) (l : list string) (s : string) :
  Parser.first_match test l = Some s -> In s l /\ test s = true.
Proof.
  induction l as [|x l IH]; [discriminate|]. cbn.
  destruct (test x) eqn:E.
  - intros [= <-]. split; [now left | exact E].
  - intros H. destruct (IH H). split; [now right | assumption].
Qed.



(** X29: on strings of ASCII characters and with [exact], the flag is
    set exactly when a string is returned, and a returned string is one
    of the list.  When it is not an upper-case word it equals the search
    string up to case; when it is an upper-case word it only has to
    contain the search string up to case. *)
Theorem match_list_exact (in_list : list string) (match_string : string) :
  Forall is_ascii in_list -> is_ascii match_string ->
  exists chk r,
    Parser.match_list in_list match_string true = (chk, Parser.Exact r) /\
    (chk = true <-> r <> None) /\
    forall s, r = Some s ->
      In s in_list /\
      (Parser.isupper s = false ->
       PyStr.lower match_string = PyStr.lower s) /\
      (Parser.isupper s = true ->
       PyStr.contains (PyStr.lower match_string) (PyStr.lower s)).
Proof.
  intros _ _. unfold Parser.match_list. cbv zeta.
  destruct (Parser.first_match _ (List.filter (fun word => _ && _) in_list))
    as [s3|] eqn:E3.
  - eexists _, _. split; [reflexivity|]. split; [split; [discriminate|reflexivity]|].
    intros s [= <-]. apply first_match_Some in E3 as [Hin Ht].
    apply filter_In in Hin as [Hin Hq]. apply andb_true_iff in Hq as [_ Hu].
    apply negb_true_iff in Hu. split; [exact Hin|].
    split; [intros _; now apply String.eqb_eq | congruence].
  - destruct (Parser.first_match _ (List.filter Parser.isupper in_list))
      as [s2|] eqn:E2.
    + eexists _, _. split; [reflexivity|].
      split; [split; [discriminate|reflexivity]|].
      intros s [= <-]. apply first_match_Some in E2 as [Hin Ht].
      apply filter_In in Hin as [Hin Hu]. split; [exact Hin|].
      split; [congruence | intros _; now apply containsb_spec].
    + destruct (Parser.first_match _ (List.filter Parser.islower in_list))
        as [s1|] eqn:E1.
      * eexists _, _. split; [reflexivity|].
        split; [split; [discriminate|reflexivity]|].
        intros s [= <-]. apply first_match_Some in E1 as [Hin Ht].
        apply filter_In in Hin as [Hin Hl]. split; [exact Hin|].
        split; [intros _; now apply String.eqb_eq|].
        rewrite (islower_not_isupper _ Hl). discriminate.
      * eexists _, _. split; [reflexivity|].
        split; [split; [discriminate | intros H; now destruct H]|].
        discriminate.
Qed.

Lemma match_list_exact_witness :
  Parser.match_list ["wind"; "TEMPERATURE"] "temp" true
  = (true, Parser.Exact (Some "TEMPERATURE")).
Proof.
  destruct (match_list_exact ["wind"; "TEMPERATURE"] "temp"
              ltac:(repeat constructor) eq_refl) as (chk & r & Hgo & _).
  rewrite Hgo. vm_compute in Hgo. inversion Hgo. reflexivity.
Defined.
